(** * LexiAi: the Gemini service adapter (src/services/geminiService.ts)

    A shallow embedding of the five operations of the adapter and of the
    seed helper, with the properties the specification states about them.

    Conventions of the embedding.
    - A JavaScript string is the list of its UTF-16 code units.
    - A JavaScript number that the code only ever uses at integer values
      below 2^53 in magnitude is a [Z]; the 32-bit conversions of the
      bitwise operators are written out ([ToInt32]).
    - An [async] function is a computation that leaves lines on the console
      and settles: it is fulfilled with a value or rejected with what was
      thrown.
    - The generation service, [String.prototype.toLowerCase] and
      [JSON.parse] are not code of this module; they are parameters of the
      operations that use them. *)

From Stdlib Require Import ZArith List String Ascii Bool Lia.
From stdpp Require Import base option list.

Local Open Scope Z_scope.
Local Open Scope list_scope.

(** ** JavaScript values used by the module *)

Module JS.

(** A string, as its sequence of UTF-16 code units. *)
Abbreviation jsstring := (list Z).

(** The code units of a literal written with ASCII characters only. *)
Definition lit (s : string) : jsstring :=
  map (fun a => Z.of_nat (nat_of_ascii a)) (list_ascii_of_string s).

(** The double quote, which the prompts contain. *)
Definition dq : jsstring := [34].

(** A code unit is a 16-bit unsigned integer. *)
Definition code_unit (c : Z) : Prop := 0 <= c < 65536.

(** ToInt32 of the language definition: reduce modulo 2^32 and read the
    result as a two's complement 32-bit integer. *)
Definition ToInt32 (x : Z) : Z := (x + 2 ^ 31) mod 2 ^ 32 - 2 ^ 31.

(** [x << n]: both operands converted, the count masked to five bits, the
    shifted value folded back to 32 bits. *)
Definition shl (x n : Z) : Z := ToInt32 (Z.shiftl (ToInt32 x) (Z.land n 31)).

(** [x & y] on the 32-bit conversions of the operands. *)
Definition band (x y : Z) : Z := Z.land (ToInt32 x) (ToInt32 y).

Definition Math_abs (x : Z) : Z := Z.abs x.

(** WhiteSpace and LineTerminator code points, the ones [trim] strips
    (all of them are single code units). *)
Definition isWhiteSpace (c : Z) : bool :=
  existsb (Z.eqb c)
    [9; 10; 11; 12; 13; 32; 160; 5760; 8232; 8233; 8239; 8287; 12288; 65279]
  || ((8192 <=? c) && (c <=? 8202)).

Fixpoint trimStart (s : jsstring) : jsstring :=
  match s with
  | [] => []
  | c :: rest => if isWhiteSpace c then trimStart rest else s
  end.

Definition trimEnd (s : jsstring) : jsstring := rev (trimStart (rev s)).

Definition trim (s : jsstring) : jsstring := trimEnd (trimStart s).

(** [a.join(sep)] on an array of strings. *)
Fixpoint join (sep : jsstring) (a : list jsstring) : jsstring :=
  match a with
  | [] => []
  | [x] => x
  | x :: rest => x ++ sep ++ join sep rest
  end.

(** Truthiness of a value that is a string or [undefined]. *)
Definition truthy (v : option jsstring) : bool :=
  match v with
  | Some (_ :: _) => true
  | Some [] | None => false
  end.

(** The text a template literal inserts for a string or [undefined]. *)
Definition interpolate (v : option jsstring) : jsstring :=
  match v with
  | Some s => s
  | None => lit "undefined"
  end.

(** [toLowerCase] restricted to what it does on ASCII letters. It agrees
    with the runtime's function on every string of ASCII code units and
    serves as an instance of the parameter below. *)
Definition asciiLowerUnit (c : Z) : Z :=
  if (65 <=? c) && (c <=? 90) then c + 32 else c.

Definition asciiLower (s : jsstring) : jsstring := map asciiLowerUnit s.

End JS.

Import JS.

(** ** The seed helper *)

(** One turn of the loop body of [getSeed]:
    [hash = ((hash << 5) - hash) + char; hash = hash & hash]. The
    subtraction and the addition are those of numbers; only [<<] and [&]
    convert to 32 bits. *)
Definition getSeed_body (hash char : Z) : Z :=
  let hash := (shl hash 5 - hash) + char in
  band hash hash.

(** [for (let i = 0; i < str.length; i++)], with [fuel] turns left;
    [str !! i] is [str.charCodeAt(i)] for an index inside the string. *)
Fixpoint getSeed_loop (str : jsstring) (fuel i : nat) (hash : Z) : Z :=
  match fuel with
  | O => hash
  | S fuel' =>
      match str !! i with
      | Some char => getSeed_loop str fuel' (S i) (getSeed_body hash char)
      | None => hash
      end
  end.

Definition getSeed (str : jsstring) : Z :=
  Math_abs (getSeed_loop str (length str) 0 0).

(** The rolling hash as the specification words it: multiply by 31, add the
    character code, fold to a signed 32-bit integer at every step. *)
Definition rolling31_step (h c : Z) : Z := ToInt32 (31 * h + c).

Definition rolling31 (s : jsstring) : Z := fold_left rolling31_step s 0.

Definition seed_spec (s : jsstring) : Z := Z.abs (rolling31 s).

(** ** The shapes of the SDK that the module reads and writes

    Only the fields the module touches are kept. An optional field is an
    [option]; [undefined] is [None]. *)

Module Genai.

(** [Type.OBJECT], [Type.ARRAY], [Type.STRING]. *)
Inductive SchemaType := OBJECT | ARRAY | STRING.

Inductive Modality := TEXT | IMAGE | AUDIO.

#[warnings="-register-all"]
Inductive Schema :=
| MkSchema (type : SchemaType) (description : option jsstring)
    (properties : list (jsstring * Schema)) (items : option Schema).

Record PrebuiltVoiceConfig := { voiceName : jsstring }.
Record VoiceConfig := { prebuiltVoiceConfig : PrebuiltVoiceConfig }.
Record SpeechConfig := { voiceConfig : VoiceConfig }.

Record GenerateContentConfig := {
  temperature : option Z;
  seed : option Z;
  responseMimeType : option jsstring;
  responseSchema : option Schema;
  responseModalities : option (list Modality);
  speechConfig : option SpeechConfig
}.

(** Inline binary data: the base64 payload and its media type. *)
Record Blob := { data : option jsstring; mimeType : option jsstring }.

Record Part := { part_text : option jsstring; inlineData : option Blob }.

Record Content := { parts : option (list Part) }.

Record Candidate := { content : option Content }.

(** [text] is an accessor of the SDK's response object; the module only
    reads it, so it is kept as a field of its own. *)
Record GenerateContentResponse := {
  candidates : option (list Candidate);
  text : option jsstring
}.

(** What [contents] may be: a string, one content, or an array of them. *)
Inductive ContentListUnion :=
| PromptText (prompt : jsstring)
| OneContent (c : Content)
| ContentArray (cs : list Content).

Record GenerateContentParameters := {
  model : jsstring;
  contents : ContentListUnion;
  config : option GenerateContentConfig
}.

(** What a call of the service throws when it fails. *)
Record ServiceFault := { fault_name : jsstring; fault_message : jsstring }.

(** A call of [ai.models.generateContent], once awaited. *)
Inductive ServiceOutcome :=
| Resolves (response : GenerateContentResponse)
| Throws (fault : ServiceFault).

(** A part that carries text only, as the requests build them. *)
Definition textPart (t : jsstring) : Part :=
  {| part_text := Some t; inlineData := None |}.

End Genai.

Import Genai.

(** ** Effects: the console and the settlement of an async function *)

(** What can be thrown inside the module: an [Error] it constructs itself,
    the error of [JSON.parse], or whatever the service call threw, which is
    passed on as it is. *)
Inductive Thrown :=
| Error (message : jsstring)
| SyntaxError (input : jsstring)
| ServiceError (fault : ServiceFault).

Inductive Settled (A : Type) :=
| Fulfilled (value : A)
| Rejected (reason : Thrown).

Arguments Fulfilled {A} value.
Arguments Rejected {A} reason.

(** A line written by [console.error(label, error)]. *)
Definition LogLine : Type := jsstring * Thrown.

(** An async computation: the lines it logged and how it settled. *)
Definition Async (A : Type) : Type := list LogLine * Settled A.

Definition logged {A} (m : Async A) : list LogLine := fst m.
Definition settled {A} (m : Async A) : Settled A := snd m.

Definition ret {A} (a : A) : Async A := ([], Fulfilled a).

Definition throw {A} (e : Thrown) : Async A := ([], Rejected e).

Definition bind {A B} (m : Async A) (k : A -> Async B) : Async B :=
  match m with
  | (l, Fulfilled a) => let (l', r) := k a in (l ++ l', r)
  | (l, Rejected e) => (l, Rejected e)
  end.

(** [try { body } catch (error) { handler }]. *)
Definition try_catch {A} (body : Async A) (handler : Thrown -> Async A)
  : Async A :=
  match body with
  | (l, Rejected e) => let (l', r) := handler e in (l ++ l', r)
  | (l, Fulfilled a) => (l, Fulfilled a)
  end.

Definition console_error (label : jsstring) (e : Thrown) : Async unit :=
  ([(label, e)], Fulfilled tt).

(** [await] of the service call: its response, or its error rethrown. *)
Definition await (o : ServiceOutcome) : Async GenerateContentResponse :=
  match o with
  | Resolves r => ret r
  | Throws f => throw (ServiceError f)
  end.

Notation "'do' x <- m ; k" := (bind m (fun x => k))
  (at level 10, x name, m at level 100, k at level 200).
Notation "m ;; k" := (bind m (fun _ => k))
  (at level 100, k at level 200, right associativity).

(** Optional chaining: [v?.f] is [undefined] when [v] is. *)
Notation "v ?> f" := (mbind (M := option) f v)
  (at level 50, left associativity).

(** ** Request construction *)

Definition nl : jsstring := [10].

Definition stringSchema (d : option jsstring) : Schema :=
  MkSchema STRING d [] None.

(** The [responseSchema] of the definition request. *)
Definition definitionSchema (nativeLang targetLang : jsstring) : Schema :=
  MkSchema OBJECT None
    [ (lit "definition", stringSchema None);
      (lit "examples",
        MkSchema ARRAY None []
          (Some (MkSchema OBJECT None
            [ (lit "target",
                stringSchema (Some (lit "The example sentence in "
                  ++ targetLang ++ lit " (e.g. Spanish).")));
              (lit "native",
                stringSchema (Some (lit "The translation of the example in "
                  ++ nativeLang ++ lit " (e.g. English)."))) ]
            None)));
      (lit "usageNote", stringSchema None) ]
    None.

Definition definitionPrompt (term nativeLang targetLang : jsstring)
  : jsstring :=
  concat
    [ nl;
      lit "    Define the term "; dq; term; dq; lit " (which is in ";
        targetLang; lit ") for a speaker of "; nativeLang; lit "."; nl;
      lit "    Provide:"; nl;
      lit "    1. A natural language definition in "; nativeLang; lit ".";
        nl;
      lit "    2. Two example sentences. CRITICAL: "; nl;
      lit "       - The 'target' field MUST be the sentence in ";
        targetLang; lit "."; nl;
      lit "       - The 'native' field MUST be the translation in ";
        nativeLang; lit "."; nl;
      lit "    3. A "; dq; lit "usageNote"; dq; lit " in "; nativeLang;
        lit " that explains cultural nuance, tone, or related words. "; nl;
      lit "       CRITICAL: The usage note must be fun, lively, and casual. Like a friend talking. No textbook style. Be concise.";
        nl;
      lit "  " ].

Definition definitionRequest (term nativeLang targetLang : jsstring)
  : GenerateContentParameters :=
  {| model := lit "gemini-2.5-flash";
     contents := PromptText (definitionPrompt term nativeLang targetLang);
     config := Some
       {| temperature := Some 0;
          seed := None;
          responseMimeType := Some (lit "application/json");
          responseSchema := Some (definitionSchema nativeLang targetLang);
          responseModalities := None;
          speechConfig := None |} |}.

Definition imagePrompt (term targetLang : jsstring) : jsstring :=
  concat
    [ lit "A simple, bright, pop-art style illustration representing the concept of ";
      dq; term; dq; lit " (in "; targetLang;
      lit "). Minimalist, colorful, vector art style. White background. High contrast, thick lines." ].

(** The request of [generateImage], given the seed it computed. *)
Definition imageRequest (seed : Z) (term targetLang : jsstring)
  : GenerateContentParameters :=
  {| model := lit "gemini-2.5-flash-image";
     contents :=
       OneContent {| parts := Some [textPart (imagePrompt term targetLang)] |};
     config := Some
       {| temperature := None; seed := Some seed; responseMimeType := None;
          responseSchema := None; responseModalities := None;
          speechConfig := None |} |}.

Definition speechRequest (text : jsstring) : GenerateContentParameters :=
  {| model := lit "gemini-2.5-flash-preview-tts";
     contents := ContentArray [ {| parts := Some [textPart text] |} ];
     config := Some
       {| temperature := None; seed := None; responseMimeType := None;
          responseSchema := None;
          responseModalities := Some [AUDIO];
          speechConfig := Some
            {| voiceConfig :=
                 {| prebuiltVoiceConfig := {| voiceName := lit "Kore" |} |}
            |} |} |}.

Definition storyPrompt (words : list jsstring)
  (nativeLang targetLang : jsstring) : jsstring :=
  concat
    [ nl;
      lit "    Create a short, practical real-life dialogue in "; targetLang;
        lit " using as many of these words as possible naturally: ";
        join (lit ", ") words; lit "."; nl;
      lit "    "; nl;
      lit "    Requirements:"; nl;
      lit "    1. Format as a simple conversation script (e.g., Person A: ... / Person B: ...).";
        nl;
      lit "    2. Sentences must be simple, short, and beginner-friendly.";
        nl;
      lit "    3. IMMEDIATELY after each "; targetLang;
        lit " sentence, include the "; nativeLang;
        lit " translation in parentheses on the same line."; nl;
      lit "    4. Keep it concise (max 6-8 lines of dialogue)."; nl;
      lit "  " ].

Definition storyRequest (words : list jsstring)
  (nativeLang targetLang : jsstring) : GenerateContentParameters :=
  {| model := lit "gemini-2.5-flash";
     contents := PromptText (storyPrompt words nativeLang targetLang);
     config := None |}.

(** The [type] parameter of [getQuickAiAnswer]. *)
Inductive AnswerKind := natural | mistake | funfact.

(** The [switch] of [getQuickAiAnswer]. *)
Definition specificPrompt (term : jsstring) (type : AnswerKind) : jsstring :=
  match type with
  | natural =>
      concat
        [ lit "Explain the most natural, authentic ways to use the word ";
          dq; term; dq;
          lit " in casual conversation. Give a couple of quick examples." ]
  | mistake =>
      concat
        [ lit "What are the most common mistakes learners make when using or pronouncing ";
          dq; term; dq; lit "? How can they avoid them?" ]
  | funfact =>
      concat
        [ lit "Tell me a fun fact, etymology, or a "; dq; lit "tricky"; dq;
          lit " mnemonic way to memorize "; dq; term; dq; lit "." ]
  end.

Definition fullPrompt (term : jsstring) (type : AnswerKind)
  (nativeLang targetLang : jsstring) : jsstring :=
  concat
    [ nl;
      lit "    You are a fun, energetic language tutor. "; nl;
      lit "    The user is asking about the word "; dq; term; dq;
        lit " (which is in "; targetLang; lit ")."; nl;
      lit "    Answer this request for a "; nativeLang; lit " speaker: ";
        dq; specificPrompt term type; dq; nl;
      lit "    "; nl;
      lit "    CRITICAL INSTRUCTIONS:"; nl;
      lit "    1. Keep the answer VERY SHORT (1-4 sentences maximum)."; nl;
      lit "    2. Be simple and beginner-friendly."; nl;
      lit "    3. Use casual language and emojis."; nl;
      lit "  " ].

Definition quickAnswerRequest (term : jsstring) (type : AnswerKind)
  (nativeLang targetLang : jsstring) : GenerateContentParameters :=
  {| model := lit "gemini-2.5-flash";
     contents := PromptText (fullPrompt term type nativeLang targetLang);
     config := Some
       {| temperature := Some 0; seed := None; responseMimeType := None;
          responseSchema := None; responseModalities := None;
          speechConfig := None |} |}.

(** The temperature a request asks for, [undefined] when it sets none. *)
Definition requestedTemperature (req : GenerateContentParameters)
  : option Z :=
  config req ?> temperature.

Definition requestedSeed (req : GenerateContentParameters) : option Z :=
  config req ?> seed.

(** ** The five operations *)

Definition noDefinitionGenerated : Thrown :=
  Error (lit "No definition generated").

Definition storyFallback : jsstring := lit "Could not generate dialogue.".

Definition answerFallback : jsstring :=
  lit "Could not generate an answer right now.".

Definition imagePrefix : jsstring := lit "data:image/png;base64,".

(** [response.candidates?.[0]?.content?.parts]. *)
Definition firstCandidateParts (response : GenerateContentResponse)
  : option (list Part) :=
  candidates response ?> (.!! 0%nat) ?> content ?> parts.

(** The [for ... of] loop of [generateImage], which returns at the first
    part that has [inlineData]. *)
Fixpoint scanParts (ps : list Part) : option jsstring :=
  match ps with
  | [] => None
  | part :: rest =>
      match inlineData part with
      | Some blob => Some (imagePrefix ++ interpolate (data blob))
      | None => scanParts rest
      end
  end.

(** [v || d] for [v] a string or [undefined] and [d] a string. *)
Definition orString (v : option jsstring) (d : jsstring) : jsstring :=
  match v with
  | Some (c :: s) => c :: s
  | Some [] | None => d
  end.

(** [v || null]. *)
Definition orNull (v : option jsstring) : option jsstring :=
  if truthy v then v else None.

Section Operations.

(** [ai.models.generateContent], awaited. *)
Variable generateContent : GenerateContentParameters -> ServiceOutcome.

(** [String.prototype.toLowerCase]. *)
Variable toLowerCase : jsstring -> jsstring.

(** The values [JSON.parse] returns, and [JSON.parse] itself; [None] is
    its [SyntaxError]. *)
Variable JsonValue : Type.
Variable JSON_parse : jsstring -> option JsonValue.

Definition getDefinition (term nativeLang targetLang : jsstring)
  : Async JsonValue :=
  do response <-
    await (generateContent (definitionRequest term nativeLang targetLang));
  match text response with
  | None | Some [] => throw noDefinitionGenerated
  | Some (c :: s) =>
      match JSON_parse (c :: s) with
      | Some parsed => ret parsed
      | None => throw (SyntaxError (c :: s))
      end
  end.

Definition generateImage (term targetLang : jsstring)
  : Async (option jsstring) :=
  try_catch
    (let seed := getSeed (trim (toLowerCase term)) in
     do response <-
       await (generateContent (imageRequest seed term targetLang));
     ret (scanParts (default [] (firstCandidateParts response))))
    (fun error =>
       console_error (lit "Image generation failed") error ;;
       ret None).

Definition generateSpeech (text : jsstring) : Async (option jsstring) :=
  try_catch
    (do response <- await (generateContent (speechRequest text));
     let base64Audio :=
       firstCandidateParts response ?> (.!! 0%nat) ?> inlineData ?> data in
     ret (orNull base64Audio))
    (fun error =>
       console_error (lit "TTS failed") error ;;
       ret None).

Definition generateStory (words : list jsstring)
  (nativeLang targetLang : jsstring) : Async jsstring :=
  do response <-
    await (generateContent (storyRequest words nativeLang targetLang));
  ret (orString (text response) storyFallback).

Definition getQuickAiAnswer (term : jsstring) (type : AnswerKind)
  (nativeLang targetLang : jsstring) : Async jsstring :=
  do response <-
    await
      (generateContent (quickAnswerRequest term type nativeLang targetLang));
  ret (orString (text response) answerFallback).

End Operations.

(** ** Derived notions used by the statements *)

(** The seed [generateImage] puts in its request for a term:
    [getSeed(term.toLowerCase().trim())]. *)
Definition seedOfTerm (toLowerCase : jsstring -> jsstring) (term : jsstring)
  : Z :=
  getSeed (trim (toLowerCase term)).

(** A response without text: [response.text] is [undefined] or empty. *)
Definition noText (r : GenerateContentResponse) : Prop :=
  text r = None \/ text r = Some [].

(** [response.candidates?.[0]?.content?.parts?.[0]]. *)
Definition firstPart (r : GenerateContentResponse) : option Part :=
  firstCandidateParts r ?> (.!! 0%nat).

(** An instance of the [JSON.parse] parameter: the parser cut down to the
    three literal texts of the grammar; every other text is refused. *)
Inductive JsonLiteral := JNull | JTrue | JFalse.

Definition parseLiteral (t : jsstring) : option JsonLiteral :=
  if decide (t = lit "null") then Some JNull
  else if decide (t = lit "true") then Some JTrue
  else if decide (t = lit "false") then Some JFalse
  else None.

(** Sample services and responses. The [text] of a sample response is
    what the SDK's accessor gives for its parts: the texts of the parts
    that have one, joined, and [undefined] when no part has text. *)
Definition textOfParts (ps : list Part) : option jsstring :=
  match omap part_text ps with
  | [] => None
  | t :: ts => Some (concat (t :: ts))
  end.

Definition partsResponse (ps : list Part) : GenerateContentResponse :=
  {| candidates := Some [ {| content := Some {| parts := Some ps |} |} ];
     text := textOfParts ps |}.

Definition textResponse (t : option jsstring) : GenerateContentResponse :=
  match t with
  | Some t => partsResponse [textPart t]
  | None => {| candidates := None; text := None |}
  end.

Definition blobPart (payload : option jsstring) : Part :=
  {| part_text := None;
     inlineData := Some {| data := payload; mimeType := None |} |}.

Definition always (r : GenerateContentResponse)
  : GenerateContentParameters -> ServiceOutcome :=
  fun _ => Resolves r.

Definition quotaExceeded : ServiceFault :=
  {| fault_name := lit "ApiError"; fault_message := lit "quota exceeded" |}.

Definition failing : GenerateContentParameters -> ServiceOutcome :=
  fun _ => Throws quotaExceeded.

Definition networkDown : ServiceFault :=
  {| fault_name := lit "TypeError"; fault_message := lit "fetch failed" |}.

(** A response whose first candidate has a text part and then two parts
    with inline data. *)
Definition twoImages : GenerateContentResponse :=
  partsResponse
    [ textPart (lit "Here is the picture.");
      blobPart (Some (lit "iVBORw0KGgo="));
      blobPart (Some (lit "R0lGODlh")) ].

(** Audio in the first part, followed by another part with audio. *)
Definition audioFirst : GenerateContentResponse :=
  partsResponse
    [ blobPart (Some (lit "UklGRiQA")); blobPart (Some (lit "AAAA")) ].

(** A first part with text only; audio in the second part, and in a second
    candidate. *)
Definition audioLater : GenerateContentResponse :=
  {| candidates := Some
       [ {| content := Some
              {| parts := Some [ textPart (lit "hola");
                                 blobPart (Some (lit "UklGRiQA")) ] |} |};
         {| content := Some
              {| parts := Some [ blobPart (Some (lit "AAAA")) ] |} |} ];
     text := Some (lit "hola") |}.

(** A first part whose inline data has an empty payload. *)
Definition emptyPayload : GenerateContentResponse :=
  partsResponse [ blobPart (Some []) ].

(** A service that answers zero-temperature requests with [r] and fails on
    every other request with [f]. *)
Definition coldOnly (r : GenerateContentResponse) (f : ServiceFault)
  : GenerateContentParameters -> ServiceOutcome :=
  fun req =>
    if decide (requestedTemperature req = Some 0) then Resolves r
    else Throws f.

(** ** Notions used by the further properties *)

(** The polynomial the rolling hash evaluates, without any wrap-around:
    each code unit weighted by 31 to the number of code units after it. *)
Fixpoint powsum (s : jsstring) : Z :=
  match s with
  | [] => 0
  | c :: rest => c * 31 ^ Z.of_nat (length rest) + powsum rest
  end.

(** What the loop of [generateImage] can see of a response: for each part
    of the first candidate, whether it has inline data and, if so, the
    payload. *)
Definition inlinePayloads (r : GenerateContentResponse)
  : list (option (option jsstring)) :=
  map (fun p => data <$> inlineData p) (default [] (firstCandidateParts r)).

(** The pieces of [fullPrompt] before and after the specific prompt. *)
Definition fullPromptHead (term nativeLang targetLang : jsstring)
  : jsstring :=
  concat
    [ nl;
      lit "    You are a fun, energetic language tutor. "; nl;
      lit "    The user is asking about the word "; dq; term; dq;
        lit " (which is in "; targetLang; lit ")."; nl;
      lit "    Answer this request for a "; nativeLang; lit " speaker: ";
        dq ].

Definition fullPromptTail : jsstring :=
  concat
    [ dq; nl;
      lit "    "; nl;
      lit "    CRITICAL INSTRUCTIONS:"; nl;
      lit "    1. Keep the answer VERY SHORT (1-4 sentences maximum)."; nl;
      lit "    2. Be simple and beginner-friendly."; nl;
      lit "    3. Use casual language and emojis."; nl;
      lit "  " ].

(** A response with a JPEG in the second part of its first candidate and a
    second candidate, and one with the same payload and no media type. *)
Definition jpegResponse : GenerateContentResponse :=
  {| candidates := Some
       [ {| content := Some
              {| parts := Some
                   [ textPart (lit "Here you go.");
                     {| part_text := None;
                        inlineData := Some
                          {| data := Some (lit "/9j/4AAQ");
                             mimeType := Some (lit "image/jpeg") |} |} ] |} |};
         {| content := Some
              {| parts := Some [ blobPart (Some (lit "AAAA")) ] |} |} ];
     text := Some (lit "Here you go.") |}.

Definition bareResponse : GenerateContentResponse :=
  partsResponse [ textPart (lit "Done."); blobPart (Some (lit "/9j/4AAQ")) ].

(** A service that fails with [f] on zero-temperature requests and
    answers every other request with [r]. *)
Definition coldFails (f : ServiceFault) (r : GenerateContentResponse)
  : GenerateContentParameters -> ServiceOutcome :=
  fun req =>
    if decide (requestedTemperature req = Some 0) then Throws f
    else Resolves r.

(** A response whose first part has inline data without a [data] field,
    followed by a part with a payload. *)
Definition missingPayload : GenerateContentResponse :=
  partsResponse [ blobPart None; blobPart (Some (lit "iVBORw0KGgo=")) ].

(** * Properties *)

(** ** Arithmetic of the 32-bit conversions *)

Section Int32.

Lemma ToInt32_range x : - 2 ^ 31 <= ToInt32 x < 2 ^ 31.
Proof.
  unfold ToInt32.
  pose proof (Z.mod_pos_bound (x + 2 ^ 31) (2 ^ 32) ltac:(lia)). lia.
Qed.

Lemma ToInt32_small x : - 2 ^ 31 <= x < 2 ^ 31 -> ToInt32 x = x.
Proof.
  intros Hx. unfold ToInt32. rewrite Z.mod_small; lia.
Qed.

Lemma ToInt32_idem x : ToInt32 (ToInt32 x) = ToInt32 x.
Proof. apply ToInt32_small, ToInt32_range. Qed.

(** ToInt32 only depends on its argument modulo 2^32. *)
Lemma ToInt32_congr x y :
  x mod 2 ^ 32 = y mod 2 ^ 32 -> ToInt32 x = ToInt32 y.
Proof.
  intros Hxy. unfold ToInt32.
  rewrite <- (Zplus_mod_idemp_l x), <- (Zplus_mod_idemp_l y), Hxy.
  reflexivity.
Qed.

Lemma ToInt32_mod x : ToInt32 x mod 2 ^ 32 = x mod 2 ^ 32.
Proof.
  unfold ToInt32.
  rewrite <- Zminus_mod_idemp_l, Z.mod_mod by lia.
  rewrite Zminus_mod_idemp_l. f_equal. lia.
Qed.

Lemma shl_5 x : shl x 5 = ToInt32 (32 * x).
Proof.
  unfold shl. change (Z.land 5 31) with 5.
  rewrite Z.shiftl_mul_pow2 by lia.
  apply ToInt32_congr.
  rewrite <- Zmult_mod_idemp_l, ToInt32_mod, Zmult_mod_idemp_l.
  f_equal. lia.
Qed.

Lemma band_diag x : band x x = ToInt32 x.
Proof. unfold band. apply Z.land_diag. Qed.

(** The loop body is the specification's step. *)
Lemma getSeed_body_rolling31 h c : getSeed_body h c = rolling31_step h c.
Proof.
  unfold getSeed_body, rolling31_step. cbv zeta.
  rewrite band_diag, shl_5.
  apply ToInt32_congr.
  rewrite <- Zplus_mod_idemp_l, <- Zminus_mod_idemp_l, ToInt32_mod.
  rewrite Zminus_mod_idemp_l, Zplus_mod_idemp_l.
  f_equal. lia.
Qed.

(** The intermediate value that the code computes on doubles stays far
    below 2^53, so the integer arithmetic of the embedding is exact. *)
Lemma getSeed_body_exact h c :
  - 2 ^ 31 <= h <= 2 ^ 31 -> code_unit c ->
  Z.abs (shl h 5) <= 2 ^ 31 /\ Z.abs (shl h 5 - h) <= 2 ^ 32 /\
  Z.abs ((shl h 5 - h) + c) < 2 ^ 53.
Proof.
  intros Hh Hc. unfold code_unit in Hc.
  pose proof (ToInt32_range (Z.shiftl (ToInt32 h) (Z.land 5 31))) as Hs.
  fold (shl h 5) in Hs. lia.
Qed.

End Int32.

(** ** The seed is the absolute value of the rolling hash *)

Section Seed.

(** The indexed loop visits the code units from left to right. *)
Lemma getSeed_loop_fold (pre s : jsstring) (h : Z) :
  getSeed_loop (pre ++ s) (length s) (length pre) h
  = fold_left getSeed_body s h.
Proof.
  revert pre h. induction s as [|c s IH]; intros pre h; [reflexivity|].
  cbn [length getSeed_loop fold_left].
  rewrite list_lookup_middle by reflexivity.
  replace (pre ++ c :: s) with ((pre ++ [c]) ++ s)
    by (rewrite <- app_assoc; reflexivity).
  replace (S (length pre)) with (length (pre ++ [c]))
    by (rewrite length_app; cbn; lia).
  apply IH.
Qed.

Lemma fold_getSeed_body_rolling31 s h :
  fold_left getSeed_body s h = fold_left rolling31_step s h.
Proof.
  revert h. induction s as [|c s IH]; intros h; [reflexivity|].
  cbn [fold_left]. rewrite getSeed_body_rolling31. apply IH.
Qed.

Lemma getSeed_unfold s : getSeed s = Z.abs (rolling31 s).
Proof.
  unfold getSeed, Math_abs, rolling31.
  pose proof (getSeed_loop_fold [] s 0) as Hloop.
  cbn [app length] in Hloop. rewrite Hloop.
  rewrite fold_getSeed_body_rolling31. reflexivity.
Qed.

Lemma rolling31_fold_range s h :
  - 2 ^ 31 <= h < 2 ^ 31 ->
  - 2 ^ 31 <= fold_left rolling31_step s h < 2 ^ 31.
Proof.
  revert h. induction s as [|c s IH]; intros h Hh; [exact Hh|].
  cbn [fold_left]. apply IH, ToInt32_range.
Qed.

Lemma rolling31_range s : - 2 ^ 31 <= rolling31 s < 2 ^ 31.
Proof. apply rolling31_fold_range. lia. Qed.

(** The hash of a string extended by one code unit. *)
Lemma rolling31_snoc s c :
  rolling31 (s ++ [c]) = ToInt32 (31 * rolling31 s + c).
Proof. unfold rolling31. rewrite fold_left_app. reflexivity. Qed.

(** C3. For every string the seed is the absolute value of the rolling
    hash h := 31*h + charCode folded to a signed 32-bit integer at each
    step, and it is a non-negative integer no greater than 2^31. *)
Theorem getSeed_rolling_hash (s : jsstring) :
  getSeed s = seed_spec s /\ 0 <= getSeed s <= 2 ^ 31.
Proof.
  rewrite getSeed_unfold. unfold seed_spec. split; [reflexivity|].
  pose proof (rolling31_range s). lia.
Qed.

(** The upper bound is reached: this string hashes to -2^31, whose
    absolute value is not a 32-bit signed integer any more. *)
Example getSeed_reaches_bound :
  getSeed (lit "polygenelubricants") = 2 ^ 31.
Proof. vm_compute. reflexivity. Qed.

Example getSeed_gato : getSeed (lit "gato") = 3165397.
Proof. vm_compute. reflexivity. Qed.

End Seed.

(** ** Trimming and lower-casing *)

Section Trim.

Lemma trimStart_idem s : trimStart (trimStart s) = trimStart s.
Proof.
  induction s as [|c s IH]; [reflexivity|].
  cbn [trimStart]. destruct (isWhiteSpace c) eqn:Hc; [exact IH|].
  cbn [trimStart]. rewrite Hc. reflexivity.
Qed.

(** A code unit that is not white space stops the scan from the left. *)
Lemma trimStart_snoc s c :
  isWhiteSpace c = false -> trimStart (s ++ [c]) = trimStart s ++ [c].
Proof.
  intros Hc. induction s as [|d s IH]; cbn [app trimStart].
  - rewrite Hc. reflexivity.
  - destruct (isWhiteSpace d); [exact IH | reflexivity].
Qed.

Lemma trimEnd_cons c s :
  isWhiteSpace c = false -> trimEnd (c :: s) = c :: trimEnd s.
Proof.
  intros Hc. unfold trimEnd. cbn [rev].
  rewrite trimStart_snoc by exact Hc.
  rewrite rev_app_distr. reflexivity.
Qed.

Lemma trimEnd_idem s : trimEnd (trimEnd s) = trimEnd s.
Proof.
  unfold trimEnd. rewrite rev_involutive, trimStart_idem. reflexivity.
Qed.

(** What [trimStart] returns is empty or starts with a code unit that is
    not white space, and trimming the end keeps it so. *)
Lemma trimStart_trimEnd_trimStart s :
  trimStart (trimEnd (trimStart s)) = trimEnd (trimStart s).
Proof.
  induction s as [|c s IH]; [reflexivity|].
  cbn [trimStart]. destruct (isWhiteSpace c) eqn:Hc; [exact IH|].
  rewrite trimEnd_cons by exact Hc. cbn [trimStart]. rewrite Hc. reflexivity.
Qed.

Lemma trim_idem s : trim (trim s) = trim s.
Proof.
  unfold trim. rewrite trimStart_trimEnd_trimStart. apply trimEnd_idem.
Qed.

Lemma isWhiteSpace_letter c : 65 <= c <= 122 -> isWhiteSpace c = false.
Proof.
  intros Hc. unfold isWhiteSpace. cbn [existsb].
  repeat match goal with
         | |- context [c =? ?k] => rewrite (proj2 (Z.eqb_neq c k)) by lia
         end.
  rewrite (proj2 (Z.leb_gt 8192 c)) by lia. reflexivity.
Qed.

Lemma asciiLowerUnit_cases c :
  (65 <= c <= 90 /\ asciiLowerUnit c = c + 32) \/
  (~ 65 <= c <= 90 /\ asciiLowerUnit c = c).
Proof.
  unfold asciiLowerUnit.
  destruct (Z.leb_spec 65 c), (Z.leb_spec c 90); cbn [andb]; lia.
Qed.

Lemma asciiLowerUnit_idem c : asciiLowerUnit (asciiLowerUnit c) = asciiLowerUnit c.
Proof.
  destruct (asciiLowerUnit_cases c) as [[Hc ->]|[Hc ->]].
  - destruct (asciiLowerUnit_cases (c + 32)) as [[Hd _]|[_ ->]]; [lia|reflexivity].
  - destruct (asciiLowerUnit_cases c) as [[Hd _]|[_ ->]]; [lia|reflexivity].
Qed.

Lemma isWhiteSpace_asciiLowerUnit c :
  isWhiteSpace (asciiLowerUnit c) = isWhiteSpace c.
Proof.
  destruct (asciiLowerUnit_cases c) as [[Hc ->]|[Hc ->]]; [|reflexivity].
  rewrite !isWhiteSpace_letter by lia. reflexivity.
Qed.

Lemma asciiLower_idem s : asciiLower (asciiLower s) = asciiLower s.
Proof.
  unfold asciiLower. rewrite map_map. apply map_ext.
  intros c. apply asciiLowerUnit_idem.
Qed.

Lemma asciiLower_trimStart s :
  asciiLower (trimStart s) = trimStart (asciiLower s).
Proof.
  induction s as [|c s IH]; [reflexivity|].
  cbn [trimStart asciiLower map]. rewrite isWhiteSpace_asciiLowerUnit.
  destruct (isWhiteSpace c); [exact IH | reflexivity].
Qed.

Lemma asciiLower_trimEnd s :
  asciiLower (trimEnd s) = trimEnd (asciiLower s).
Proof.
  unfold trimEnd, asciiLower at 1. rewrite map_rev.
  fold (asciiLower (trimStart (rev s))). rewrite asciiLower_trimStart.
  unfold asciiLower. rewrite map_rev. reflexivity.
Qed.

Lemma asciiLower_trim s : asciiLower (trim s) = trim (asciiLower s).
Proof.
  unfold trim. rewrite asciiLower_trimEnd, asciiLower_trimStart. reflexivity.
Qed.

End Trim.

(** ** The seed of a term does not depend on case or surrounding space *)

Section SeedOfTerm.

Variable toLowerCase : jsstring -> jsstring.

(** Two facts about the runtime's [toLowerCase]: lower-casing twice is
    lower-casing once, and it neither adds, removes nor alters white space
    at the ends of a string. *)
Hypothesis toLowerCase_idem :
  forall s, toLowerCase (toLowerCase s) = toLowerCase s.
Hypothesis toLowerCase_trim :
  forall s, toLowerCase (trim s) = trim (toLowerCase s).

Lemma normalize_after_lower_trim s :
  trim (toLowerCase (toLowerCase (trim s))) = trim (toLowerCase s).
Proof.
  rewrite toLowerCase_idem, toLowerCase_trim. apply trim_idem.
Qed.

Lemma normalize_idem s :
  trim (toLowerCase (trim (toLowerCase s))) = trim (toLowerCase s).
Proof.
  rewrite toLowerCase_trim, toLowerCase_idem. apply trim_idem.
Qed.

(** C2. The seed computed for a string is a function of the string (two
    evaluations on the same string agree), and it is invariant under
    normalization: the seed of [s] is the seed of lowercase(trim(s)), and
    also of trim(lowercase(s)), the order in which the code normalizes. *)
Theorem seedOfTerm_normalization_invariant (s : jsstring) :
  (forall s', s' = s ->
     seedOfTerm toLowerCase s' = seedOfTerm toLowerCase s /\
     getSeed s' = getSeed s) /\
  seedOfTerm toLowerCase s = seedOfTerm toLowerCase (toLowerCase (trim s)) /\
  seedOfTerm toLowerCase s = seedOfTerm toLowerCase (trim (toLowerCase s)).
Proof.
  split; [intros s' ->; split; reflexivity|].
  unfold seedOfTerm.
  rewrite normalize_after_lower_trim, normalize_idem. split; reflexivity.
Qed.

End SeedOfTerm.

(** The seed [generateImage] sends is [seedOfTerm]. *)
Lemma generateImage_seed generateContent toLowerCase term targetLang :
  generateImage generateContent toLowerCase term targetLang
  = try_catch
      (do response <-
         await (generateContent
                  (imageRequest (seedOfTerm toLowerCase term) term targetLang));
       ret (scanParts (default [] (firstCandidateParts response))))
      (fun error =>
         console_error (lit "Image generation failed") error ;; ret None).
Proof. reflexivity. Qed.

Lemma imageRequest_seed z term targetLang :
  requestedSeed (imageRequest z term targetLang) = Some z.
Proof. reflexivity. Qed.

(** The helper alone does not normalize: it tells case and outer space
    apart, which is why [generateImage] normalizes before calling it. *)
Example getSeed_is_case_sensitive :
  getSeed (lit "Gato") <> getSeed (lit "gato") /\
  getSeed (lit " gato") <> getSeed (lit "gato").
Proof. split; vm_compute; discriminate. Qed.

(** The instance of C2 at the ASCII lower-casing and a padded, capitalized
    term. *)
Lemma seedOfTerm_normalization_invariant_witness :
  (forall s', s' = lit "  Gato " ->
     seedOfTerm asciiLower s' = seedOfTerm asciiLower (lit "  Gato ") /\
     getSeed s' = getSeed (lit "  Gato ")) /\
  seedOfTerm asciiLower (lit "  Gato ")
  = seedOfTerm asciiLower (asciiLower (trim (lit "  Gato "))) /\
  seedOfTerm asciiLower (lit "  Gato ")
  = seedOfTerm asciiLower (trim (asciiLower (lit "  Gato "))).
Proof.
  exact (seedOfTerm_normalization_invariant asciiLower asciiLower_idem
           asciiLower_trim (lit "  Gato ")).
Defined.

(** ** Laws of the async computations *)

Section AsyncLaws.

Context {A B C : Type}.

Lemma bind_ret_l (a : A) (k : A -> Async B) : bind (ret a) k = k a.
Proof. unfold bind, ret. destruct (k a). reflexivity. Qed.

Lemma bind_ret_r (m : Async A) : bind m ret = m.
Proof.
  destruct m as [l [a|e]]; cbn; [rewrite app_nil_r|]; reflexivity.
Qed.

Lemma bind_throw (e : Thrown) (k : A -> Async B) : bind (throw e) k = throw e.
Proof. reflexivity. Qed.

Lemma bind_assoc (m : Async A) (k : A -> Async B) (h : B -> Async C) :
  bind (bind m k) h = bind m (fun a => bind (k a) h).
Proof.
  destruct m as [l [a|e]]; cbn; [|reflexivity].
  destruct (k a) as [l' [b|e]]; cbn; [|reflexivity].
  destruct (h b) as [l'' r]. rewrite app_assoc. reflexivity.
Qed.

Lemma try_catch_ret (a : A) (h : Thrown -> Async A) :
  try_catch (ret a) h = ret a.
Proof. reflexivity. Qed.

Lemma try_catch_throw (e : Thrown) (h : Thrown -> Async A) :
  try_catch (throw e) h = h e.
Proof. unfold try_catch, throw. destruct (h e). reflexivity. Qed.

(** A handler that never rejects makes the whole [try] never reject. *)
Lemma try_catch_never_rejects (m : Async A) (h : Thrown -> Async A) :
  (forall e e', settled (h e) <> Rejected e') ->
  forall e', settled (try_catch m h) <> Rejected e'.
Proof.
  intros Hh e'. destruct m as [l [a|e]]; cbn.
  - discriminate.
  - specialize (Hh e e'). destruct (h e) as [l' r]. exact Hh.
Qed.

End AsyncLaws.

Lemma await_resolves r : await (Resolves r) = ret r.
Proof. reflexivity. Qed.

Lemma await_throws f : await (Throws f) = throw (ServiceError f).
Proof. reflexivity. Qed.

Create Rewrite HintDb async.
#[local] Hint Rewrite @bind_ret_l @bind_throw @try_catch_ret @try_catch_throw
  await_resolves await_throws : async.

(** Rewrites the awaited call with what is known of the service, then
    runs the monadic steps. *)
Ltac run_with H := rewrite H; autorewrite with async.

(** ** Falsy text and the two fallbacks *)

Lemma orString_truthy t d : t <> [] -> orString (Some t) d = t.
Proof. destruct t; [congruence | reflexivity]. Qed.

Lemma orString_noText r d : noText r -> orString (text r) d = d.
Proof. intros [-> | ->]; reflexivity. Qed.

Lemma orString_cases v d :
  orString v d = d \/ (v = Some (orString v d) /\ orString v d <> []).
Proof.
  destruct v as [[|c s]|]; cbn; [left; reflexivity| |left; reflexivity].
  right. split; [reflexivity | discriminate].
Qed.

Lemma orNull_payload t : t <> [] -> orNull (Some t) = Some t.
Proof. destruct t; [congruence | reflexivity]. Qed.

(** ** The scan over the parts of the first candidate *)

Lemma scanParts_Some ps uri :
  scanParts ps = Some uri ->
  exists before part after blob,
    ps = before ++ part :: after /\
    Forall (fun p => inlineData p = None) before /\
    inlineData part = Some blob /\
    uri = imagePrefix ++ interpolate (data blob).
Proof.
  induction ps as [|p ps IH]; cbn [scanParts]; [discriminate|].
  destruct (inlineData p) as [blob|] eqn:Hp.
  - intros [= <-]. exists [], p, ps, blob. auto.
  - intros Hscan.
    destruct (IH Hscan) as (before & part & after & blob & -> & Hb & Hi & Hu).
    exists (p :: before), part, after, blob. auto.
Qed.

Lemma scanParts_None ps :
  Forall (fun p => inlineData p = None) ps -> scanParts ps = None.
Proof.
  induction 1 as [|p ps Hp _ IH]; cbn [scanParts]; [reflexivity|].
  rewrite Hp. exact IH.
Qed.

(** Parts without inline data in front of a part are skipped. *)
Lemma scanParts_skip before part after blob :
  Forall (fun p => inlineData p = None) before ->
  inlineData part = Some blob ->
  scanParts (before ++ part :: after)
  = Some (imagePrefix ++ interpolate (data blob)).
Proof.
  intros Hb Hp. induction Hb as [|p ps Hn _ IH]; cbn [app scanParts].
  - rewrite Hp. reflexivity.
  - rewrite Hn. exact IH.
Qed.

(** ** getDefinition *)

Section Definition_.

Variable generateContent : GenerateContentParameters -> ServiceOutcome.
Variable JsonValue : Type.
Variable JSON_parse : jsstring -> option JsonValue.

(** The empty text is not a JSON text. *)
Hypothesis JSON_parse_empty : JSON_parse [] = None.

(** A service error reaches the caller as it was thrown. *)
Lemma getDefinition_propagates term nativeLang targetLang f :
  generateContent (definitionRequest term nativeLang targetLang) = Throws f ->
  getDefinition generateContent JsonValue JSON_parse term nativeLang targetLang
  = throw (ServiceError f).
Proof. intros H. unfold getDefinition. run_with H. reflexivity. Qed.

Lemma getDefinition_silent term nativeLang targetLang :
  logged
    (getDefinition generateContent JsonValue JSON_parse
       term nativeLang targetLang) = [].
Proof.
  unfold getDefinition.
  destruct (generateContent _) as [r|f]; autorewrite with async;
    [|reflexivity].
  destruct (text r) as [[|c s]|]; try reflexivity.
  destruct (JSON_parse (c :: s)); reflexivity.
Qed.

(** C1. getDefinition is rejected with the error "No definition generated"
    if and only if the service call succeeds and yields no text (absent or
    empty); when the service yields a non-empty text that is not valid
    JSON, the error of the JSON decoder reaches the caller; when the text
    is valid JSON, getDefinition is fulfilled with the parsed value. *)
Theorem getDefinition_outcomes (term nativeLang targetLang : jsstring) :
  (settled
     (getDefinition generateContent JsonValue JSON_parse
        term nativeLang targetLang)
   = Rejected (Error (lit "No definition generated"))
   <-> exists r,
         generateContent (definitionRequest term nativeLang targetLang)
         = Resolves r /\ noText r) /\
  (forall r t,
     generateContent (definitionRequest term nativeLang targetLang)
     = Resolves r ->
     text r = Some t -> t <> [] -> JSON_parse t = None ->
     getDefinition generateContent JsonValue JSON_parse
       term nativeLang targetLang
     = throw (SyntaxError t)) /\
  (forall r t parsed,
     generateContent (definitionRequest term nativeLang targetLang)
     = Resolves r ->
     text r = Some t -> JSON_parse t = Some parsed ->
     getDefinition generateContent JsonValue JSON_parse
       term nativeLang targetLang
     = ret parsed).
Proof.
  split; [split|split].
  - unfold getDefinition.
    destruct (generateContent _) as [r|f] eqn:Hcall; autorewrite with async.
    + destruct (text r) as [[|c s]|] eqn:Htext.
      * intros _. exists r. split; [reflexivity | right; exact Htext].
      * destruct (JSON_parse (c :: s)); discriminate.
      * intros _. exists r. split; [reflexivity | left; exact Htext].
    + discriminate.
  - intros (r & Hcall & Hno). unfold getDefinition. run_with Hcall.
    destruct Hno as [-> | ->]; reflexivity.
  - intros r t Hcall Htext Ht Hparse. unfold getDefinition. run_with Hcall.
    rewrite Htext. destruct t as [|c s]; [congruence|].
    rewrite Hparse. reflexivity.
  - intros r t parsed Hcall Htext Hparse. unfold getDefinition.
    run_with Hcall. rewrite Htext.
    destruct t as [|c s]; [congruence|].
    rewrite Hparse. reflexivity.
Qed.

End Definition_.

Lemma parseLiteral_empty : parseLiteral [] = None.
Proof. reflexivity. Qed.

(** C1 at three services: one that answers without text, one that answers
    with a text that is not JSON, one that answers with a JSON literal. *)
Lemma getDefinition_outcomes_witness :
  settled
    (getDefinition (always (textResponse (Some []))) JsonLiteral parseLiteral
       (lit "run") (lit "English") (lit "Spanish"))
  = Rejected (Error (lit "No definition generated")) /\
  getDefinition (always (textResponse (Some (lit "oops")))) JsonLiteral
    parseLiteral (lit "run") (lit "English") (lit "Spanish")
  = throw (SyntaxError (lit "oops")) /\
  getDefinition (always (textResponse (Some (lit "null")))) JsonLiteral
    parseLiteral (lit "run") (lit "English") (lit "Spanish")
  = ret JNull.
Proof.
  split; [|split].
  - apply (proj1 (getDefinition_outcomes (always (textResponse (Some [])))
                    JsonLiteral parseLiteral parseLiteral_empty
                    (lit "run") (lit "English") (lit "Spanish"))).
    exists (textResponse (Some [])). split; [reflexivity | right; reflexivity].
  - apply (proj1 (proj2 (getDefinition_outcomes
                    (always (textResponse (Some (lit "oops"))))
                    JsonLiteral parseLiteral parseLiteral_empty
                    (lit "run") (lit "English") (lit "Spanish")))
             (textResponse (Some (lit "oops"))) (lit "oops"));
      [reflexivity | reflexivity | discriminate | reflexivity].
  - apply (proj2 (proj2 (getDefinition_outcomes
                    (always (textResponse (Some (lit "null"))))
                    JsonLiteral parseLiteral parseLiteral_empty
                    (lit "run") (lit "English") (lit "Spanish")))
             (textResponse (Some (lit "null"))) (lit "null") JNull);
      reflexivity.
Defined.

(** ** generateImage and generateSpeech: errors are absorbed *)

Section Recovery.

Variable generateContent : GenerateContentParameters -> ServiceOutcome.
Variable toLowerCase : jsstring -> jsstring.

Lemma handler_never_rejects (label : jsstring) (e e' : Thrown) :
  settled (console_error label e ;; ret (@None jsstring)) <> Rejected e'.
Proof. discriminate. Qed.

(** Whatever the service does, [generateImage] is fulfilled. *)
Lemma generateImage_never_rejects term targetLang e :
  settled (generateImage generateContent toLowerCase term targetLang)
  <> Rejected e.
Proof.
  unfold generateImage. apply try_catch_never_rejects.
  intros e1 e2. apply handler_never_rejects.
Qed.

Lemma generateSpeech_never_rejects text e :
  settled (generateSpeech generateContent text) <> Rejected e.
Proof.
  unfold generateSpeech. apply try_catch_never_rejects.
  intros e1 e2. apply handler_never_rejects.
Qed.

(** C4. When the call of the image service throws, whatever the error,
    generateImage is fulfilled with null: the error is caught, logged on
    the console and turned into the absent value, and generateImage is
    never rejected. *)
Theorem generateImage_recovers (term targetLang : jsstring)
  (f : ServiceFault)
  (Hthrows :
     generateContent
       (imageRequest (getSeed (trim (toLowerCase term))) term targetLang)
     = Throws f) :
  generateImage generateContent toLowerCase term targetLang
  = ([(lit "Image generation failed", ServiceError f)], Fulfilled None) /\
  forall e,
    settled (generateImage generateContent toLowerCase term targetLang)
    <> Rejected e.
Proof.
  split; [|apply generateImage_never_rejects].
  unfold generateImage. cbv zeta. run_with Hthrows. reflexivity.
Qed.

(** C5. When the call of the speech service throws, whatever the error,
    generateSpeech is fulfilled with null and is never rejected. *)
Theorem generateSpeech_recovers (text : jsstring) (f : ServiceFault)
  (Hthrows : generateContent (speechRequest text) = Throws f) :
  generateSpeech generateContent text
  = ([(lit "TTS failed", ServiceError f)], Fulfilled None) /\
  forall e, settled (generateSpeech generateContent text) <> Rejected e.
Proof.
  split; [|apply generateSpeech_never_rejects].
  unfold generateSpeech. run_with Hthrows. reflexivity.
Qed.

End Recovery.

(** C4 at the term of the specification and a service out of quota. *)
Lemma generateImage_recovers_witness :
  generateImage failing asciiLower (lit "gato") (lit "Spanish")
  = ([(lit "Image generation failed", ServiceError quotaExceeded)],
     Fulfilled None) /\
  forall e,
    settled (generateImage failing asciiLower (lit "gato") (lit "Spanish"))
    <> Rejected e.
Proof.
  apply (generateImage_recovers failing asciiLower (lit "gato")
           (lit "Spanish") quotaExceeded).
  reflexivity.
Defined.

(** C5 at the text of the specification and a service out of quota. *)
Lemma generateSpeech_recovers_witness :
  generateSpeech failing (lit "hola")
  = ([(lit "TTS failed", ServiceError quotaExceeded)], Fulfilled None) /\
  forall e, settled (generateSpeech failing (lit "hola")) <> Rejected e.
Proof.
  apply (generateSpeech_recovers failing (lit "hola") quotaExceeded).
  reflexivity.
Defined.

(** ** generateStory and getQuickAiAnswer: text or a fixed fallback *)

Section TextOrFallback.

Variable generateContent : GenerateContentParameters -> ServiceOutcome.

(** C6. For every word list, the empty one included, when the service
    call succeeds generateStory returns the text of the service if it is
    not empty and the literal "Could not generate dialogue." otherwise; it
    is fulfilled for the empty word list whenever the service call
    succeeds; an error of the service reaches the caller. *)
Theorem generateStory_text_or_fallback (words : list jsstring)
  (nativeLang targetLang : jsstring) :
  (forall r,
     generateContent (storyRequest words nativeLang targetLang) = Resolves r ->
     (forall t, text r = Some t -> t <> [] ->
        generateStory generateContent words nativeLang targetLang = ret t) /\
     (noText r ->
        generateStory generateContent words nativeLang targetLang
        = ret (lit "Could not generate dialogue."))) /\
  (forall r,
     generateContent (storyRequest [] nativeLang targetLang) = Resolves r ->
     exists v,
       generateStory generateContent [] nativeLang targetLang = ret v /\
       (v = lit "Could not generate dialogue." \/
        (text r = Some v /\ v <> []))) /\
  (forall f,
     generateContent (storyRequest words nativeLang targetLang) = Throws f ->
     generateStory generateContent words nativeLang targetLang
     = throw (ServiceError f)).
Proof.
  split; [|split].
  - intros r Hcall. unfold generateStory. run_with Hcall. split.
    + intros t -> Ht. rewrite orString_truthy by exact Ht. reflexivity.
    + intros Hno. rewrite orString_noText by exact Hno. reflexivity.
  - intros r Hcall. unfold generateStory. run_with Hcall.
    exists (orString (text r) storyFallback). split; [reflexivity|].
    apply orString_cases.
  - intros f Hcall. unfold generateStory. run_with Hcall. reflexivity.
Qed.

(** C7. For every term and each of the three answer kinds, when the
    service call succeeds getQuickAiAnswer returns the text of the service
    if it is not empty and the literal "Could not generate an answer right
    now." otherwise; an error of the service reaches the caller. *)
Theorem getQuickAiAnswer_text_or_fallback (term : jsstring)
  (type : AnswerKind) (nativeLang targetLang : jsstring) :
  (forall r,
     generateContent (quickAnswerRequest term type nativeLang targetLang)
     = Resolves r ->
     (forall t, text r = Some t -> t <> [] ->
        getQuickAiAnswer generateContent term type nativeLang targetLang
        = ret t) /\
     (noText r ->
        getQuickAiAnswer generateContent term type nativeLang targetLang
        = ret (lit "Could not generate an answer right now."))) /\
  (forall f,
     generateContent (quickAnswerRequest term type nativeLang targetLang)
     = Throws f ->
     getQuickAiAnswer generateContent term type nativeLang targetLang
     = throw (ServiceError f)).
Proof.
  split.
  - intros r Hcall. unfold getQuickAiAnswer. run_with Hcall. split.
    + intros t -> Ht. rewrite orString_truthy by exact Ht. reflexivity.
    + intros Hno. rewrite orString_noText by exact Hno. reflexivity.
  - intros f Hcall. unfold getQuickAiAnswer. run_with Hcall. reflexivity.
Qed.

End TextOrFallback.

(** The answer kinds are the three of the source and no other. *)
Lemma AnswerKind_closed (type : AnswerKind) :
  type = natural \/ type = mistake \/ type = funfact.
Proof. destruct type; auto. Qed.

(** C6 at the empty word list: an empty answer gives the fallback, a
    dialogue is returned as it is, a failure of the service is passed on. *)
Lemma generateStory_text_or_fallback_witness :
  generateStory (always (textResponse (Some []))) []
    (lit "English") (lit "Spanish")
  = ret (lit "Could not generate dialogue.") /\
  generateStory (always (textResponse (Some (lit "A: Hola. (Hello.)")))) []
    (lit "English") (lit "Spanish")
  = ret (lit "A: Hola. (Hello.)") /\
  generateStory failing [] (lit "English") (lit "Spanish")
  = throw (ServiceError quotaExceeded).
Proof.
  split; [|split].
  - apply (proj1 (generateStory_text_or_fallback
                    (always (textResponse (Some []))) []
                    (lit "English") (lit "Spanish"))
             (textResponse (Some [])) eq_refl).
    right. reflexivity.
  - apply (proj1 (generateStory_text_or_fallback
                    (always (textResponse (Some (lit "A: Hola. (Hello.)"))))
                    [] (lit "English") (lit "Spanish"))
             (textResponse (Some (lit "A: Hola. (Hello.)"))) eq_refl);
      [reflexivity | discriminate].
  - apply (proj2 (proj2 (generateStory_text_or_fallback failing []
                           (lit "English") (lit "Spanish")))).
    reflexivity.
Defined.

(** C7 at the call of the specification. *)
Lemma getQuickAiAnswer_text_or_fallback_witness :
  getQuickAiAnswer (always (textResponse None)) (lit "perro") funfact
    (lit "English") (lit "Spanish")
  = ret (lit "Could not generate an answer right now.") /\
  getQuickAiAnswer (always (textResponse (Some (lit "Woof!")))) (lit "perro")
    funfact (lit "English") (lit "Spanish")
  = ret (lit "Woof!") /\
  getQuickAiAnswer failing (lit "perro") funfact
    (lit "English") (lit "Spanish")
  = throw (ServiceError quotaExceeded).
Proof.
  split; [|split].
  - apply (proj1 (getQuickAiAnswer_text_or_fallback
                    (always (textResponse None)) (lit "perro") funfact
                    (lit "English") (lit "Spanish"))
             (textResponse None) eq_refl).
    left. reflexivity.
  - apply (proj1 (getQuickAiAnswer_text_or_fallback
                    (always (textResponse (Some (lit "Woof!"))))
                    (lit "perro") funfact (lit "English") (lit "Spanish"))
             (textResponse (Some (lit "Woof!"))) eq_refl);
      [reflexivity | discriminate].
  - apply (proj2 (getQuickAiAnswer_text_or_fallback failing (lit "perro")
                    funfact (lit "English") (lit "Spanish"))).
    reflexivity.
Defined.

(** ** Zero temperature *)

Section Temperature.

Variable JsonValue : Type.
Variable JSON_parse : jsstring -> option JsonValue.

Lemma definitionRequest_temperature term nativeLang targetLang :
  requestedTemperature (definitionRequest term nativeLang targetLang)
  = Some 0.
Proof. reflexivity. Qed.

Lemma quickAnswerRequest_temperature term type nativeLang targetLang :
  requestedTemperature (quickAnswerRequest term type nativeLang targetLang)
  = Some 0.
Proof. reflexivity. Qed.

(** The other three requests leave the temperature to the service. *)
Lemma other_requests_temperature z term words text nativeLang targetLang :
  requestedTemperature (imageRequest z term targetLang) = None /\
  requestedTemperature (speechRequest text) = None /\
  requestedTemperature (storyRequest words nativeLang targetLang) = None.
Proof. repeat split. Qed.

(** C8. The requests built by getDefinition and by getQuickAiAnswer carry
    the temperature 0, for every input, and these are the requests the two
    operations send: what the service answers to zero-temperature requests
    is what they pass on (its error is their rejection, its text their
    result), whatever it would answer to other requests. Hence two services
    that agree on zero-temperature requests give the same results, and
    with one service equal inputs give equal results. *)
Theorem zero_temperature_generation
  (generateContent generateContent' : GenerateContentParameters ->
                                      ServiceOutcome)
  (term nativeLang targetLang : jsstring) (type : AnswerKind)
  (Hagree : forall req,
      requestedTemperature req = Some 0 ->
      generateContent req = generateContent' req) :
  requestedTemperature (definitionRequest term nativeLang targetLang)
  = Some 0 /\
  requestedTemperature (quickAnswerRequest term type nativeLang targetLang)
  = Some 0 /\
  getDefinition generateContent JsonValue JSON_parse
    term nativeLang targetLang
  = getDefinition generateContent' JsonValue JSON_parse
      term nativeLang targetLang /\
  getQuickAiAnswer generateContent term type nativeLang targetLang
  = getQuickAiAnswer generateContent' term type nativeLang targetLang /\
  (forall term' nativeLang' targetLang' type',
     term' = term -> nativeLang' = nativeLang -> targetLang' = targetLang ->
     type' = type ->
     getDefinition generateContent JsonValue JSON_parse
       term' nativeLang' targetLang'
     = getDefinition generateContent JsonValue JSON_parse
         term nativeLang targetLang /\
     getQuickAiAnswer generateContent term' type' nativeLang' targetLang'
     = getQuickAiAnswer generateContent term type nativeLang targetLang) /\
  (forall f,
     (forall req,
        requestedTemperature req = Some 0 -> generateContent req = Throws f) ->
     getDefinition generateContent JsonValue JSON_parse
       term nativeLang targetLang
     = throw (ServiceError f) /\
     getQuickAiAnswer generateContent term type nativeLang targetLang
     = throw (ServiceError f)) /\
  (forall r t,
     (forall req,
        requestedTemperature req = Some 0 ->
        generateContent req = Resolves r) ->
     text r = Some t -> t <> [] ->
     getQuickAiAnswer generateContent term type nativeLang targetLang
     = ret t /\
     (forall parsed,
        JSON_parse t = Some parsed ->
        getDefinition generateContent JsonValue JSON_parse
          term nativeLang targetLang
        = ret parsed) /\
     (JSON_parse t = None ->
      getDefinition generateContent JsonValue JSON_parse
        term nativeLang targetLang
      = throw (SyntaxError t))).
Proof.
  split; [apply definitionRequest_temperature|].
  split; [apply quickAnswerRequest_temperature|].
  split; [|split; [|split; [|split]]].
  - unfold getDefinition.
    rewrite (Hagree _ (definitionRequest_temperature _ _ _)). reflexivity.
  - unfold getQuickAiAnswer.
    rewrite (Hagree _ (quickAnswerRequest_temperature _ _ _ _)). reflexivity.
  - intros term' nativeLang' targetLang' type' -> -> -> ->.
    split; reflexivity.
  - intros f Hcold. split.
    + unfold getDefinition.
      run_with (Hcold _ (definitionRequest_temperature
                           term nativeLang targetLang)).
      reflexivity.
    + unfold getQuickAiAnswer.
      run_with (Hcold _ (quickAnswerRequest_temperature
                           term type nativeLang targetLang)).
      reflexivity.
  - intros r t Hcold Htext Ht. split; [|split].
    + unfold getQuickAiAnswer.
      run_with (Hcold _ (quickAnswerRequest_temperature
                           term type nativeLang targetLang)).
      rewrite Htext, orString_truthy by exact Ht. reflexivity.
    + intros parsed Hparse. unfold getDefinition.
      run_with (Hcold _ (definitionRequest_temperature
                           term nativeLang targetLang)).
      rewrite Htext. destruct t as [|c t]; [congruence|].
      rewrite Hparse. reflexivity.
    + intros Hparse. unfold getDefinition.
      run_with (Hcold _ (definitionRequest_temperature
                           term nativeLang targetLang)).
      rewrite Htext. destruct t as [|c t]; [congruence|].
      rewrite Hparse. reflexivity.
Qed.

End Temperature.

Lemma coldOnly_agree r f f' req :
  requestedTemperature req = Some 0 -> coldOnly r f req = coldOnly r f' req.
Proof.
  intros Hreq. unfold coldOnly.
  destruct (decide (requestedTemperature req = Some 0)); [reflexivity|].
  contradiction.
Qed.

Lemma coldOnly_resolves r f req :
  requestedTemperature req = Some 0 -> coldOnly r f req = Resolves r.
Proof.
  intros Hreq. unfold coldOnly.
  destruct (decide (requestedTemperature req = Some 0)); [reflexivity|].
  contradiction.
Qed.

Lemma coldFails_throws f r req :
  requestedTemperature req = Some 0 -> coldFails f r req = Throws f.
Proof.
  intros Hreq. unfold coldFails.
  destruct (decide (requestedTemperature req = Some 0)); [reflexivity|].
  contradiction.
Qed.

(** C8 at two services that answer zero-temperature requests alike and
    fail differently on all other requests, at a service that answers
    only zero-temperature requests, and at one that fails only on them:
    the answer given to a zero-temperature request is the one that comes
    back. *)
Lemma zero_temperature_generation_witness :
  getDefinition (coldOnly (textResponse (Some (lit "true"))) quotaExceeded)
    JsonLiteral parseLiteral (lit "run") (lit "English") (lit "Spanish")
  = getDefinition (coldOnly (textResponse (Some (lit "true"))) networkDown)
      JsonLiteral parseLiteral (lit "run") (lit "English") (lit "Spanish") /\
  getQuickAiAnswer (coldOnly (textResponse (Some (lit "true"))) quotaExceeded)
    (lit "perro") mistake (lit "English") (lit "Spanish")
  = getQuickAiAnswer (coldOnly (textResponse (Some (lit "true"))) networkDown)
      (lit "perro") mistake (lit "English") (lit "Spanish") /\
  getQuickAiAnswer (coldOnly (textResponse (Some (lit "true"))) quotaExceeded)
    (lit "perro") mistake (lit "English") (lit "Spanish")
  = ret (lit "true") /\
  getDefinition (coldOnly (textResponse (Some (lit "true"))) quotaExceeded)
    JsonLiteral parseLiteral (lit "run") (lit "English") (lit "Spanish")
  = ret JTrue /\
  getDefinition (coldFails networkDown (textResponse (Some (lit "true"))))
    JsonLiteral parseLiteral (lit "run") (lit "English") (lit "Spanish")
  = throw (ServiceError networkDown) /\
  getQuickAiAnswer (coldFails networkDown (textResponse (Some (lit "true"))))
    (lit "perro") mistake (lit "English") (lit "Spanish")
  = throw (ServiceError networkDown).
Proof.
  pose proof (coldOnly_agree (textResponse (Some (lit "true")))
                quotaExceeded networkDown) as Hagree.
  pose proof (zero_temperature_generation JsonLiteral parseLiteral
                (coldOnly (textResponse (Some (lit "true"))) quotaExceeded)
                (coldOnly (textResponse (Some (lit "true"))) networkDown)
                (lit "run") (lit "English") (lit "Spanish") natural
                Hagree) as (_ & _ & Hdef & _ & _ & _ & Hsent).
  pose proof (zero_temperature_generation JsonLiteral parseLiteral
                (coldOnly (textResponse (Some (lit "true"))) quotaExceeded)
                (coldOnly (textResponse (Some (lit "true"))) networkDown)
                (lit "perro") (lit "English") (lit "Spanish") mistake
                Hagree) as (_ & _ & _ & Hquick & _ & _ & Hsent').
  pose proof (zero_temperature_generation JsonLiteral parseLiteral
                (coldFails networkDown (textResponse (Some (lit "true"))))
                (coldFails networkDown (textResponse (Some (lit "true"))))
                (lit "run") (lit "English") (lit "Spanish") natural
                (fun _ _ => eq_refl)) as (_ & _ & _ & _ & _ & Hfail & _).
  pose proof (zero_temperature_generation JsonLiteral parseLiteral
                (coldFails networkDown (textResponse (Some (lit "true"))))
                (coldFails networkDown (textResponse (Some (lit "true"))))
                (lit "perro") (lit "English") (lit "Spanish") mistake
                (fun _ _ => eq_refl)) as (_ & _ & _ & _ & _ & Hfail' & _).
  split; [exact Hdef|]. split; [exact Hquick|].
  split.
  { apply (Hsent' (textResponse (Some (lit "true"))) (lit "true"));
      [apply coldOnly_resolves | reflexivity | discriminate]. }
  split.
  { apply (Hsent (textResponse (Some (lit "true"))) (lit "true"));
      [apply coldOnly_resolves | reflexivity | discriminate | reflexivity]. }
  split.
  { apply (Hfail networkDown), coldFails_throws. }
  { apply (Hfail' networkDown), coldFails_throws. }
Defined.

(** ** The image data URI *)

Section DataUri.

Variable generateContent : GenerateContentParameters -> ServiceOutcome.
Variable toLowerCase : jsstring -> jsstring.

(** X16. Whenever generateImage returns a value that is not null, the
    service call succeeded and the value is "data:image/png;base64,"
    followed by what the template literal inserts for the [data] of the
    first part of the first candidate that has inline data: the payload
    itself when the blob has one, the text "undefined" when it has none;
    when no part of the first candidate has inline data, the result is
    null. *)
Theorem generateImage_data_uri (term targetLang : jsstring) :
  (forall uri,
     settled (generateImage generateContent toLowerCase term targetLang)
     = Fulfilled (Some uri) ->
     exists r before part after blob,
       generateContent
         (imageRequest (seedOfTerm toLowerCase term) term targetLang)
       = Resolves r /\
       default [] (firstCandidateParts r) = before ++ part :: after /\
       Forall (fun p => inlineData p = None) before /\
       inlineData part = Some blob /\
       uri = lit "data:image/png;base64," ++ interpolate (data blob) /\
       (forall payload, data blob = Some payload ->
          uri = lit "data:image/png;base64," ++ payload)) /\
  (forall r,
     generateContent
       (imageRequest (seedOfTerm toLowerCase term) term targetLang)
     = Resolves r ->
     Forall (fun p => inlineData p = None)
       (default [] (firstCandidateParts r)) ->
     generateImage generateContent toLowerCase term targetLang = ret None).
Proof.
  split.
  - intros uri. rewrite generateImage_seed.
    destruct (generateContent _) as [r|f] eqn:Hcall;
      autorewrite with async; [|discriminate].
    cbn [settled snd ret]. intros [= Hscan].
    destruct (scanParts_Some _ _ Hscan)
      as (before & part & after & blob & Hparts & Hnone & Hblob & Huri).
    exists r, before, part, after, blob.
    repeat split; try assumption.
    intros payload Hdata. rewrite Huri, Hdata. reflexivity.
  - intros r Hcall Hnone. rewrite generateImage_seed. run_with Hcall.
    rewrite scanParts_None by exact Hnone. reflexivity.
Qed.

End DataUri.

Example generateImage_twoImages :
  generateImage (always twoImages) asciiLower (lit "gato") (lit "Spanish")
  = ret (Some (lit "data:image/png;base64,iVBORw0KGgo=")).
Proof. vm_compute. reflexivity. Qed.

(** X16 at that response: the payload of the first of the two is used. *)
Lemma generateImage_data_uri_witness :
  exists r before part after blob,
    always twoImages
      (imageRequest (seedOfTerm asciiLower (lit "gato")) (lit "gato")
         (lit "Spanish"))
    = Resolves r /\
    default [] (firstCandidateParts r) = before ++ part :: after /\
    Forall (fun p => inlineData p = None) before /\
    inlineData part = Some blob /\
    lit "data:image/png;base64,iVBORw0KGgo="
    = lit "data:image/png;base64," ++ interpolate (data blob) /\
    (forall payload, data blob = Some payload ->
       lit "data:image/png;base64,iVBORw0KGgo="
       = lit "data:image/png;base64," ++ payload).
Proof.
  apply (proj1 (generateImage_data_uri (always twoImages) asciiLower
                  (lit "gato") (lit "Spanish"))
           (lit "data:image/png;base64,iVBORw0KGgo=")).
  vm_compute. reflexivity.
Defined.

(** C9 fails on the code at a response whose first part with inline data
    has no [data] field. The guard of line 89 looks at [inlineData] only,
    so line 90 interpolates [undefined]: generateImage returns a value
    that is not null and is not the prefix followed by the payload of any
    part of the response, although a later part has a payload. On the
    same part generateSpeech, which reads the payload through [|| null],
    returns null. *)
Theorem generateImage_missing_payload
  (toLowerCase : jsstring -> jsstring) (term targetLang : jsstring) :
  firstPart missingPayload = Some (blobPart None) /\
  inlineData (blobPart None) = Some {| data := None; mimeType := None |} /\
  generateImage (always missingPayload) toLowerCase term targetLang
  = ret (Some (lit "data:image/png;base64,undefined")) /\
  (forall part payload,
     In part (default [] (firstCandidateParts missingPayload)) ->
     inlineData part ?> data = Some payload ->
     generateImage (always missingPayload) toLowerCase term targetLang
     <> ret (Some (lit "data:image/png;base64," ++ payload))) /\
  generateSpeech (always missingPayload) (lit "hola") = ret None.
Proof.
  split; [reflexivity|]. split; [reflexivity|].
  assert (Hrun :
            generateImage (always missingPayload) toLowerCase term targetLang
            = ret (Some (lit "data:image/png;base64,undefined")))
    by reflexivity.
  split; [exact Hrun|]. split; [|reflexivity].
  intros part payload Hin Hdata. rewrite Hrun.
  destruct Hin as [<- | [<- | []]]; cbn in Hdata; [discriminate|].
  injection Hdata as <-. discriminate.
Qed.

(** ** generateSpeech reads one part only *)

Section FirstPartOnly.

Variable generateContent : GenerateContentParameters -> ServiceOutcome.

Lemma generateSpeech_resolves text r :
  generateContent (speechRequest text) = Resolves r ->
  generateSpeech generateContent text
  = ret (orNull (firstPart r ?> inlineData ?> data)).
Proof. intros Hcall. unfold generateSpeech. run_with Hcall. reflexivity. Qed.

(** The first part of the first candidate, when the response has one. *)
Lemma firstPart_cons r first later_parts later_candidates :
  candidates r
  = Some ({| content := Some {| parts := Some (first :: later_parts) |} |}
          :: later_candidates) ->
  firstPart r = Some first.
Proof.
  intros Hc. unfold firstPart, firstCandidateParts. rewrite Hc. reflexivity.
Qed.

(** C10, as the code has it. generateSpeech reads only the first part of
    the first candidate of the response. If that part carries inline data
    with a payload that is not empty, the payload is returned as it is; in
    every other case (no first part, no inline data in it, or a payload
    that is absent or empty) the result is null, also when a later part or
    a later candidate carries audio. generateImage, on the same response,
    goes through every part of the first candidate. *)
Theorem generateSpeech_first_part_only (text : jsstring)
  (r : GenerateContentResponse)
  (Hcall : generateContent (speechRequest text) = Resolves r) :
  (forall part blob payload,
     firstPart r = Some part -> inlineData part = Some blob ->
     data blob = Some payload -> payload <> [] ->
     generateSpeech generateContent text = ret (Some payload)) /\
  (forall part,
     firstPart r = Some part ->
     inlineData part = None \/
     (exists blob, inlineData part = Some blob /\
                   (data blob = None \/ data blob = Some [])) ->
     generateSpeech generateContent text = ret None) /\
  (firstPart r = None -> generateSpeech generateContent text = ret None) /\
  (forall first later_parts later_candidates,
     candidates r
     = Some ({| content := Some {| parts := Some (first :: later_parts) |} |}
             :: later_candidates) ->
     inlineData first = None ->
     generateSpeech generateContent text = ret None) /\
  (forall toLowerCase term targetLang first before part after blob,
     generateContent
       (imageRequest (seedOfTerm toLowerCase term) term targetLang)
     = Resolves r ->
     firstCandidateParts r = Some (first :: before ++ part :: after) ->
     inlineData first = None ->
     Forall (fun p => inlineData p = None) before ->
     inlineData part = Some blob ->
     generateSpeech generateContent text = ret None /\
     generateImage generateContent toLowerCase term targetLang
     = ret (Some (lit "data:image/png;base64," ++ interpolate (data blob)))).
Proof.
  rewrite (generateSpeech_resolves text r Hcall).
  split; [|split; [|split; [|split]]].
  - intros part blob payload -> Hblob Hdata Hne. cbn.
    rewrite Hblob. cbn. rewrite Hdata. rewrite orNull_payload by exact Hne.
    reflexivity.
  - intros part -> [Hnone | (blob & Hblob & [Hdata | Hdata])]; cbn.
    + rewrite Hnone. reflexivity.
    + rewrite Hblob. cbn. rewrite Hdata. reflexivity.
    + rewrite Hblob. cbn. rewrite Hdata. reflexivity.
  - intros ->. reflexivity.
  - intros first later_parts later_candidates Hc Hnone.
    rewrite (firstPart_cons _ _ _ _ Hc). cbn. rewrite Hnone. reflexivity.
  - intros toLowerCase term targetLang first before part after blob
      Himage Hparts Hfirst Hbefore Hblob.
    split.
    + unfold firstPart. rewrite Hparts. cbn. rewrite Hfirst. reflexivity.
    + rewrite generateImage_seed. run_with Himage. rewrite Hparts.
      cbn [default from_option id].
      change (first :: before ++ part :: after)
        with ((first :: before) ++ part :: after).
      rewrite (scanParts_skip (first :: before) part after blob);
        [reflexivity | constructor; assumption | exact Hblob].
Qed.

End FirstPartOnly.

(** C10 as it is stated fails on a first part whose inline data has an
    empty payload: the part carries inline data, its payload is the empty
    string, and generateSpeech returns null, not that payload. *)
Lemma generateSpeech_empty_payload_is_null :
  firstPart emptyPayload = Some (blobPart (Some [])) /\
  inlineData (blobPart (Some [])) ?> data = Some [] /\
  generateSpeech (always emptyPayload) (lit "hola") = ret None /\
  generateSpeech (always emptyPayload) (lit "hola") <> ret (Some []) /\
  ~ (forall generateContent text r part blob payload,
       generateContent (speechRequest text) = Resolves r ->
       firstPart r = Some part -> inlineData part = Some blob ->
       data blob = Some payload ->
       generateSpeech generateContent text = ret (Some payload)).
Proof.
  repeat split; try discriminate.
  intros Hclaim.
  specialize (Hclaim (always emptyPayload) (lit "hola") emptyPayload
                (blobPart (Some [])) {| data := Some []; mimeType := None |}
                [] eq_refl eq_refl eq_refl eq_refl).
  discriminate Hclaim.
Qed.

(** The amended C10 at a response with audio in its first part, and at one
    with audio only after the first part. *)
Lemma generateSpeech_first_part_only_witness :
  generateSpeech (always audioFirst) (lit "hola")
  = ret (Some (lit "UklGRiQA")) /\
  generateSpeech (always audioLater) (lit "hola") = ret None /\
  generateImage (always audioLater) asciiLower (lit "gato") (lit "Spanish")
  = ret (Some (lit "data:image/png;base64,UklGRiQA")).
Proof.
  split.
  - apply (proj1 (generateSpeech_first_part_only (always audioFirst)
                    (lit "hola") audioFirst eq_refl)
             (blobPart (Some (lit "UklGRiQA")))
             {| data := Some (lit "UklGRiQA"); mimeType := None |}
             (lit "UklGRiQA"));
      [reflexivity | reflexivity | reflexivity | discriminate].
  - apply (proj2 (proj2 (proj2 (proj2
             (generateSpeech_first_part_only (always audioLater)
                (lit "hola") audioLater eq_refl))))
             asciiLower (lit "gato") (lit "Spanish")
             (textPart (lit "hola")) []
             (blobPart (Some (lit "UklGRiQA"))) []
             {| data := Some (lit "UklGRiQA"); mimeType := None |});
      [reflexivity | reflexivity | reflexivity | constructor | reflexivity].
Defined.

(** * Further properties of the code *)

(** ** The seed as a polynomial *)

Section Polynomial.

Lemma ToInt32_affine a x b : ToInt32 (a * ToInt32 x + b) = ToInt32 (a * x + b).
Proof.
  apply ToInt32_congr.
  rewrite <- Zplus_mod_idemp_l, <- Zmult_mod_idemp_r, ToInt32_mod.
  rewrite Zmult_mod_idemp_r, Zplus_mod_idemp_l. reflexivity.
Qed.

Lemma ToInt32_eq_mod x y : ToInt32 x = ToInt32 y -> x mod 2 ^ 32 = y mod 2 ^ 32.
Proof.
  intros Hxy. rewrite <- (ToInt32_mod x), <- (ToInt32_mod y), Hxy.
  reflexivity.
Qed.

(** Wrapping at every turn is wrapping once at the end. *)
Lemma rolling31_fold_closed s h :
  ToInt32 (fold_left rolling31_step s h)
  = ToInt32 (31 ^ Z.of_nat (length s) * h + powsum s).
Proof.
  revert h. induction s as [|c s IH]; intros h.
  - cbn [fold_left length powsum]. f_equal. change (Z.of_nat 0) with 0. lia.
  - cbn [fold_left length powsum]. rewrite IH. unfold rolling31_step.
    rewrite ToInt32_affine. f_equal.
    rewrite Nat2Z.inj_succ, Z.pow_succ_r by lia. ring.
Qed.

(** After at least one turn the hash is a 32-bit integer. *)
Lemma rolling31_fold_wrapped s h :
  s <> [] ->
  ToInt32 (fold_left rolling31_step s h) = fold_left rolling31_step s h.
Proof.
  destruct s as [|c s]; [congruence|]. intros _. cbn [fold_left].
  apply ToInt32_small, rolling31_fold_range, ToInt32_range.
Qed.

Lemma rolling31_powsum s : rolling31 s = ToInt32 (powsum s).
Proof.
  rewrite <- (ToInt32_small (rolling31 s)) by apply rolling31_range.
  unfold rolling31. rewrite rolling31_fold_closed. f_equal. ring.
Qed.

Lemma powsum_bounds s :
  Forall code_unit s ->
  0 <= powsum s /\
  30 * powsum s <= 65535 * (31 ^ Z.of_nat (length s) - 1).
Proof.
  induction 1 as [|c s Hc _ [IH0 IH1]]; cbn [powsum length].
  - change (Z.of_nat 0) with 0. lia.
  - unfold code_unit in Hc.
    rewrite Nat2Z.inj_succ, Z.pow_succ_r by lia.
    assert (0 < 31 ^ Z.of_nat (length s)) by (apply Z.pow_pos_nonneg; lia).
    split; nia.
Qed.

(** X1. The seed of a string is the absolute value of the polynomial
    sum of c_i * 31^(n-1-i) over its code units, reduced once to a signed
    32-bit integer: the wrap-around at every turn of the loop has the same
    effect as a single one at the end. *)
Theorem getSeed_closed_form (s : jsstring) :
  getSeed s = Z.abs (ToInt32 (powsum s)).
Proof. rewrite getSeed_unfold, rolling31_powsum. reflexivity. Qed.

(** X2. On a string of at most four code units nothing wraps: the seed
    is the polynomial value itself. *)
Theorem getSeed_short_string (s : jsstring)
  (Hunits : Forall code_unit s) (Hlen : (length s <= 4)%nat) :
  getSeed s = powsum s.
Proof.
  rewrite getSeed_unfold, rolling31_powsum.
  destruct (powsum_bounds s Hunits) as [H0 H1].
  assert (31 ^ Z.of_nat (length s) <= 31 ^ 4)
    by (apply Z.pow_le_mono_r; lia).
  rewrite ToInt32_small by lia. lia.
Qed.

(** X3. Two strings of the same length with the same hash can replace
    one another anywhere inside a longer string without changing its seed. *)
Theorem getSeed_collisions_extend (u v p t : jsstring)
  (Hlen : length u = length v) (Hhash : rolling31 u = rolling31 v) :
  getSeed (p ++ u ++ t) = getSeed (p ++ v ++ t).
Proof.
  rewrite !getSeed_unfold. f_equal. unfold rolling31.
  rewrite !fold_left_app. f_equal.
  destruct u as [|a u], v as [|b v]; try discriminate; [reflexivity|].
  rewrite <- (rolling31_fold_wrapped (a :: u)) by discriminate.
  rewrite <- (rolling31_fold_wrapped (b :: v)) by discriminate.
  rewrite !rolling31_fold_closed, Hlen.
  apply ToInt32_congr.
  rewrite !rolling31_powsum in Hhash. apply ToInt32_eq_mod in Hhash.
  rewrite <- Zplus_mod_idemp_r, Hhash, Zplus_mod_idemp_r. reflexivity.
Qed.

(** X4. On a string of code units the numbers the loop handles stay
    exact: before every turn the hash is a signed 32-bit integer, and the
    value of [((hash << 5) - hash) + char], computed on doubles, is below
    2^53 in magnitude. *)
Theorem getSeed_arithmetic_exact (pre : jsstring) (c : Z)
  (Hc : code_unit c) :
  - 2 ^ 31 <= getSeed_loop pre (length pre) 0 0 < 2 ^ 31 /\
  Z.abs ((shl (getSeed_loop pre (length pre) 0 0) 5
          - getSeed_loop pre (length pre) 0 0) + c) < 2 ^ 53.
Proof.
  pose proof (getSeed_loop_fold [] pre 0) as Hloop.
  cbn [app length] in Hloop. rewrite Hloop, fold_getSeed_body_rolling31.
  pose proof (rolling31_range pre) as Hr. unfold rolling31 in Hr.
  split; [exact Hr|].
  apply getSeed_body_exact; [lia | exact Hc].
Qed.

End Polynomial.

Lemma getSeed_short_string_witness : getSeed (lit "gato") = powsum (lit "gato").
Proof.
  apply (getSeed_short_string (lit "gato")).
  - repeat constructor; unfold code_unit; cbn; lia.
  - cbn. lia.
Defined.

Lemma getSeed_collisions_extend_witness :
  getSeed (lit "la " ++ lit "Aa" ++ lit " casa")
  = getSeed (lit "la " ++ lit "BB" ++ lit " casa").
Proof.
  apply (getSeed_collisions_extend (lit "Aa") (lit "BB")); reflexivity.
Defined.

Lemma getSeed_arithmetic_exact_witness :
  - 2 ^ 31
  <= getSeed_loop (lit "polygenelubricant")
       (length (lit "polygenelubricant")) 0 0 < 2 ^ 31 /\
  Z.abs ((shl (getSeed_loop (lit "polygenelubricant")
                 (length (lit "polygenelubricant")) 0 0) 5
          - getSeed_loop (lit "polygenelubricant")
              (length (lit "polygenelubricant")) 0 0) + 115) < 2 ^ 53.
Proof.
  apply (getSeed_arithmetic_exact (lit "polygenelubricant") 115).
  unfold code_unit. lia.
Defined.

(** ** Which outcomes the operations have *)

Lemma lit_nonempty_fallbacks : storyFallback <> [] /\ answerFallback <> [].
Proof. split; discriminate. Qed.

Lemma orString_nonempty v d : d <> [] -> orString v d <> [].
Proof. intros Hd. destruct v as [[|c s]|]; cbn; [exact Hd|discriminate|exact Hd]. Qed.

Lemma orNull_Some v p : orNull v = Some p -> v = Some p /\ p <> [].
Proof.
  destruct v as [[|c s]|]; cbn; try discriminate.
  intros [= <-]. split; [reflexivity | discriminate].
Qed.

Section Outcomes.

Variable generateContent : GenerateContentParameters -> ServiceOutcome.
Variable toLowerCase : jsstring -> jsstring.
Variable JsonValue : Type.
Variable JSON_parse : jsstring -> option JsonValue.

(** X5. getDefinition is rejected with the error of the service exactly
    when the service call threw it, and it writes nothing on the console
    in any case. *)
Theorem getDefinition_service_error (term nativeLang targetLang : jsstring)
  (f : ServiceFault) :
  (settled
     (getDefinition generateContent JsonValue JSON_parse
        term nativeLang targetLang)
   = Rejected (ServiceError f)
   <-> generateContent (definitionRequest term nativeLang targetLang)
       = Throws f) /\
  logged
    (getDefinition generateContent JsonValue JSON_parse
       term nativeLang targetLang) = [].
Proof.
  split; [|apply getDefinition_silent].
  unfold getDefinition.
  destruct (generateContent _) as [r|f'] eqn:Hcall; autorewrite with async.
  - split; [|discriminate].
    destruct (text r) as [[|c s]|]; try discriminate.
    destruct (JSON_parse (c :: s)); discriminate.
  - cbn. split; congruence.
Qed.

(** X6. generateStory and getQuickAiAnswer never return the empty
    string: whatever the service answers, a fulfilled result has at least
    one code unit. *)
Theorem text_operations_never_empty (words : list jsstring)
  (term : jsstring) (type : AnswerKind) (nativeLang targetLang : jsstring) :
  (forall v,
     settled (generateStory generateContent words nativeLang targetLang)
     = Fulfilled v -> v <> []) /\
  (forall v,
     settled
       (getQuickAiAnswer generateContent term type nativeLang targetLang)
     = Fulfilled v -> v <> []).
Proof.
  split; intros v.
  - unfold generateStory.
    destruct (generateContent _) as [r|f]; autorewrite with async;
      [|discriminate].
    cbn. intros [= <-]. apply orString_nonempty, lit_nonempty_fallbacks.
  - unfold getQuickAiAnswer.
    destruct (generateContent _) as [r|f]; autorewrite with async;
      [|discriminate].
    cbn. intros [= <-]. apply orString_nonempty, lit_nonempty_fallbacks.
Qed.

(** X7. generateStory and getQuickAiAnswer are rejected only with an
    error the service call threw, and exactly when it threw; neither
    writes on the console. *)
Theorem text_operations_rejections (words : list jsstring)
  (term : jsstring) (type : AnswerKind) (nativeLang targetLang : jsstring)
  (e : Thrown) :
  (settled (generateStory generateContent words nativeLang targetLang)
   = Rejected e
   <-> exists f,
         e = ServiceError f /\
         generateContent (storyRequest words nativeLang targetLang)
         = Throws f) /\
  (settled (getQuickAiAnswer generateContent term type nativeLang targetLang)
   = Rejected e
   <-> exists f,
         e = ServiceError f /\
         generateContent
           (quickAnswerRequest term type nativeLang targetLang)
         = Throws f) /\
  logged (generateStory generateContent words nativeLang targetLang) = [] /\
  logged (getQuickAiAnswer generateContent term type nativeLang targetLang)
  = [].
Proof.
  unfold generateStory, getQuickAiAnswer.
  destruct (generateContent (storyRequest _ _ _)) as [r|f];
    destruct (generateContent (quickAnswerRequest _ _ _ _)) as [r'|f'];
    autorewrite with async; cbn;
    repeat split;
    try discriminate;
    try (intros (f0 & _ & [=]); fail);
    try (intros [= <-]; eexists; split; reflexivity);
    try (intros (f0 & -> & [= ->]); reflexivity).
Qed.

(** Where a payload returned by [generateSpeech] comes from. *)
Lemma generateSpeech_Some_inv (text payload : jsstring) :
  settled (generateSpeech generateContent text) = Fulfilled (Some payload) ->
  payload <> [] /\
  exists r part blob,
    generateContent (speechRequest text) = Resolves r /\
    firstPart r = Some part /\
    inlineData part = Some blob /\
    data blob = Some payload.
Proof.
  unfold generateSpeech.
  destruct (generateContent _) as [r|f] eqn:Hcall; autorewrite with async;
    [|discriminate].
  cbn [settled snd ret]. intros [= Hnull].
  apply orNull_Some in Hnull. destruct Hnull as [Hchain Hne].
  split; [exact Hne|]. fold (firstPart r) in Hchain.
  destruct (firstPart r) as [part|] eqn:Hfirst; [|discriminate].
  cbn in Hchain.
  destruct (inlineData part) as [blob|] eqn:Hblob; [|discriminate].
  cbn in Hchain. exists r, part, blob.
  repeat split; try reflexivity; assumption.
Qed.

(** X8. Whenever generateSpeech returns a value that is not null, the
    service call succeeded, the value is not empty, and it is the payload
    of the inline data of the first part of the first candidate. *)
Theorem generateSpeech_payload_origin (text payload : jsstring) :
  settled (generateSpeech generateContent text) = Fulfilled (Some payload) ->
  payload <> [] /\
  exists r part blob,
    generateContent (speechRequest text) = Resolves r /\
    firstPart r = Some part /\
    inlineData part = Some blob /\
    data blob = Some payload.
Proof. exact (generateSpeech_Some_inv text payload). Qed.

(** X9. On one and the same response, what generateSpeech extracts,
    generateImage extracts too: if generateSpeech returns a payload, then
    generateImage returns that payload behind the data-URI prefix. *)
Theorem speech_payload_is_image_payload (text term targetLang : jsstring)
  (r : GenerateContentResponse) (payload : jsstring)
  (Hspeech : generateContent (speechRequest text) = Resolves r)
  (Himage :
     generateContent
       (imageRequest (seedOfTerm toLowerCase term) term targetLang)
     = Resolves r)
  (Hpayload :
     settled (generateSpeech generateContent text)
     = Fulfilled (Some payload)) :
  generateImage generateContent toLowerCase term targetLang
  = ret (Some (lit "data:image/png;base64," ++ payload)).
Proof.
  destruct (generateSpeech_Some_inv text payload Hpayload)
    as (_ & r' & part & blob & Hcall & Hfirst & Hblob & Hdata).
  rewrite Hspeech in Hcall. injection Hcall as <-.
  rewrite generateImage_seed. run_with Himage.
  unfold firstPart in Hfirst.
  destruct (firstCandidateParts r) as [[|p ps]|]; try discriminate.
  cbn in Hfirst. injection Hfirst as ->.
  cbn [default from_option id scanParts]. rewrite Hblob, Hdata. reflexivity.
Qed.

(** X11. generateImage and generateSpeech write on the console exactly
    when the service call threw, and then one line: their label with the
    error that was thrown. *)
Theorem recovery_console (term targetLang text : jsstring) :
  (logged (generateImage generateContent toLowerCase term targetLang) = []
   <-> exists r,
         generateContent
           (imageRequest (seedOfTerm toLowerCase term) term targetLang)
         = Resolves r) /\
  (forall f,
     generateContent
       (imageRequest (seedOfTerm toLowerCase term) term targetLang)
     = Throws f ->
     logged (generateImage generateContent toLowerCase term targetLang)
     = [(lit "Image generation failed", ServiceError f)]) /\
  (logged (generateSpeech generateContent text) = []
   <-> exists r, generateContent (speechRequest text) = Resolves r) /\
  (forall f,
     generateContent (speechRequest text) = Throws f ->
     logged (generateSpeech generateContent text)
     = [(lit "TTS failed", ServiceError f)]).
Proof.
  rewrite generateImage_seed. unfold generateSpeech.
  destruct (generateContent (imageRequest _ _ _)) as [r|f];
    destruct (generateContent (speechRequest _)) as [r'|f'];
    autorewrite with async; cbn;
    repeat split;
    try discriminate;
    try (intros _; eexists; reflexivity);
    try (intros [r0 [=]]; fail);
    try (intros f0 [= ->]; reflexivity).
Qed.

End Outcomes.

Lemma speech_payload_is_image_payload_witness :
  generateImage (always audioFirst) asciiLower (lit "gato") (lit "Spanish")
  = ret (Some (lit "data:image/png;base64," ++ lit "UklGRiQA")).
Proof.
  apply (speech_payload_is_image_payload (always audioFirst) asciiLower
           (lit "hola") (lit "gato") (lit "Spanish") audioFirst
           (lit "UklGRiQA"));
    reflexivity.
Defined.

Lemma generateSpeech_payload_origin_witness :
  lit "UklGRiQA" <> [] /\
  exists r part blob,
    always audioFirst (speechRequest (lit "hola")) = Resolves r /\
    firstPart r = Some part /\
    inlineData part = Some blob /\
    data blob = Some (lit "UklGRiQA").
Proof.
  apply (generateSpeech_payload_origin (always audioFirst) (lit "hola")
           (lit "UklGRiQA")).
  reflexivity.
Defined.

(** ** What the requests and the results depend on *)

Lemma scanParts_payloads ps ps' :
  map (fun p => data <$> inlineData p) ps
  = map (fun p => data <$> inlineData p) ps' ->
  scanParts ps = scanParts ps'.
Proof.
  revert ps'. induction ps as [|p ps IH]; intros [|p' ps']; cbn [map];
    try discriminate; [reflexivity|].
  intros [= Hhead Htail]. cbn [scanParts].
  destruct (inlineData p) as [b|], (inlineData p') as [b'|];
    cbn in Hhead; try discriminate.
  - injection Hhead as ->. reflexivity.
  - apply IH, Htail.
Qed.

Lemma join_comma_split (sep x y : jsstring) (ws : list jsstring) :
  join sep ((x ++ sep ++ y) :: ws) = join sep (x :: y :: ws).
Proof.
  destruct ws as [|w ws]; cbn [join]; [reflexivity|].
  rewrite <- !app_assoc. reflexivity.
Qed.

Lemma fullPrompt_split term type nativeLang targetLang :
  fullPrompt term type nativeLang targetLang
  = fullPromptHead term nativeLang targetLang
    ++ specificPrompt term type ++ fullPromptTail.
Proof.
  unfold fullPrompt, fullPromptHead, fullPromptTail.
  cbn [concat]. rewrite <- !app_assoc. reflexivity.
Qed.

Lemma specificPrompt_head term type :
  exists rest,
    specificPrompt term type
    = match type with natural => 69 | mistake => 87 | funfact => 84 end
      :: rest.
Proof. destruct type; eexists; reflexivity. Qed.

Lemma imagePrompt_split term targetLang :
  imagePrompt term targetLang
  = (lit "A simple, bright, pop-art style illustration representing the concept of "
     ++ dq)
    ++ term
    ++ concat
         [ dq; lit " (in "; targetLang;
           lit "). Minimalist, colorful, vector art style. White background. High contrast, thick lines." ].
Proof.
  unfold imagePrompt. cbn [concat]. rewrite <- !app_assoc. reflexivity.
Qed.

Section Dependencies.

Variable toLowerCase : jsstring -> jsstring.

(** X10. The result of generateImage depends on the response only
    through the inline payloads of the parts of its first candidate: the
    media type of a blob, the text of the parts, the response text and
    every candidate after the first have no influence, so the URI says
    image/png whatever the service declared. *)
Theorem generateImage_reads_payloads_only
  (generateContent generateContent' : GenerateContentParameters ->
                                      ServiceOutcome)
  (term term' targetLang targetLang' : jsstring)
  (r r' : GenerateContentResponse)
  (Hcall :
     generateContent
       (imageRequest (seedOfTerm toLowerCase term) term targetLang)
     = Resolves r)
  (Hcall' :
     generateContent'
       (imageRequest (seedOfTerm toLowerCase term') term' targetLang')
     = Resolves r')
  (Hsame : inlinePayloads r = inlinePayloads r') :
  generateImage generateContent toLowerCase term targetLang
  = generateImage generateContent' toLowerCase term' targetLang'.
Proof.
  rewrite !generateImage_seed. run_with Hcall. run_with Hcall'.
  rewrite (scanParts_payloads _ _ Hsame). reflexivity.
Qed.

(** X13. Two terms with the same normal form get the same seed, but the
    request still carries each term as it was typed: for one target
    language the two requests are equal only if the terms are. *)
Theorem imageRequest_keeps_term (term term' targetLang : jsstring)
  (Hnorm : trim (toLowerCase term) = trim (toLowerCase term')) :
  requestedSeed
    (imageRequest (seedOfTerm toLowerCase term) term targetLang)
  = requestedSeed
      (imageRequest (seedOfTerm toLowerCase term') term' targetLang) /\
  (imageRequest (seedOfTerm toLowerCase term) term targetLang
   = imageRequest (seedOfTerm toLowerCase term') term' targetLang
   <-> term = term').
Proof.
  split.
  - rewrite !imageRequest_seed. unfold seedOfTerm. rewrite Hnorm. reflexivity.
  - split; [|intros ->; reflexivity].
    intros Hreq.
    assert (Hprompt :
              imagePrompt term targetLang = imagePrompt term' targetLang).
    { apply (f_equal
               (fun q =>
                  match contents q with
                  | OneContent {| parts := Some [p] |} =>
                      default [] (part_text p)
                  | _ => []
                  end)) in Hreq.
      exact Hreq. }
    rewrite !imagePrompt_split in Hprompt.
    apply app_inv_head, app_inv_tail in Hprompt. exact Hprompt.
Qed.

End Dependencies.

(** X12. The answer kind always reaches the service: for the same term
    and languages, two kinds give the same request if and only if they
    are the same kind. *)
Theorem quickAnswerRequest_kind_injective
  (term nativeLang targetLang : jsstring) (type type' : AnswerKind) :
  quickAnswerRequest term type nativeLang targetLang
  = quickAnswerRequest term type' nativeLang targetLang
  <-> type = type'.
Proof.
  split; [|intros ->; reflexivity].
  intros Hreq.
  assert (Hprompt :
            fullPrompt term type nativeLang targetLang
            = fullPrompt term type' nativeLang targetLang).
  { apply (f_equal
             (fun q =>
                match contents q with PromptText t => t | _ => [] end))
      in Hreq.
    exact Hreq. }
  rewrite !fullPrompt_split in Hprompt.
  apply app_inv_head, app_inv_tail in Hprompt.
  destruct (specificPrompt_head term type) as [rest Hhead].
  destruct (specificPrompt_head term type') as [rest' Hhead'].
  rewrite Hhead, Hhead' in Hprompt.
  destruct type, type'; try reflexivity; discriminate Hprompt.
Qed.

(** X14. The word list reaches the service only as its words joined
    by ", ": a word that contains ", " is indistinguishable from two words,
    and a single empty word from no word at all. *)
Theorem generateStory_sees_joined_words
  (generateContent : GenerateContentParameters -> ServiceOutcome)
  (x y : jsstring) (ws : list jsstring) (nativeLang targetLang : jsstring) :
  generateStory generateContent ((x ++ lit ", " ++ y) :: ws)
    nativeLang targetLang
  = generateStory generateContent (x :: y :: ws) nativeLang targetLang /\
  generateStory generateContent [[]] nativeLang targetLang
  = generateStory generateContent [] nativeLang targetLang.
Proof.
  unfold generateStory, storyRequest, storyPrompt.
  rewrite join_comma_split. split; reflexivity.
Qed.

Lemma generateImage_reads_payloads_only_witness :
  generateImage (always jpegResponse) asciiLower (lit "gato") (lit "Spanish")
  = generateImage (always bareResponse) asciiLower (lit "Perro")
      (lit "Spanish").
Proof.
  apply (generateImage_reads_payloads_only asciiLower (always jpegResponse)
           (always bareResponse) (lit "gato") (lit "Perro") (lit "Spanish")
           (lit "Spanish") jpegResponse bareResponse);
    reflexivity.
Defined.

Lemma imageRequest_keeps_term_witness :
  requestedSeed
    (imageRequest (seedOfTerm asciiLower (lit " Gato")) (lit " Gato")
       (lit "Spanish"))
  = requestedSeed
      (imageRequest (seedOfTerm asciiLower (lit "gato")) (lit "gato")
         (lit "Spanish")) /\
  (imageRequest (seedOfTerm asciiLower (lit " Gato")) (lit " Gato")
     (lit "Spanish")
   = imageRequest (seedOfTerm asciiLower (lit "gato")) (lit "gato")
       (lit "Spanish")
   <-> lit " Gato" = lit "gato").
Proof.
  apply (imageRequest_keeps_term asciiLower (lit " Gato") (lit "gato")
           (lit "Spanish")).
  reflexivity.
Defined.

Lemma quickAnswerRequest_kind_injective_witness :
  quickAnswerRequest (lit "perro") natural (lit "English") (lit "Spanish")
  <> quickAnswerRequest (lit "perro") funfact (lit "English") (lit "Spanish").
Proof.
  intros Hreq.
  apply (quickAnswerRequest_kind_injective (lit "perro") (lit "English")
           (lit "Spanish") natural funfact) in Hreq.
  discriminate Hreq.
Defined.

(** ** When the optional results are absent *)

Lemma scanParts_None_inv ps :
  scanParts ps = None -> Forall (fun p => inlineData p = None) ps.
Proof.
  induction ps as [|p ps IH]; cbn [scanParts]; [constructor|].
  destruct (inlineData p) eqn:Hp; [discriminate|].
  intros Hscan. constructor; [exact Hp | exact (IH Hscan)].
Qed.

Lemma orNull_None v : orNull v = None -> v = None \/ v = Some [].
Proof. destruct v as [[|c s]|]; cbn; auto; discriminate. Qed.

(** X15. generateImage returns null exactly when the service call threw
    or no part of the first candidate carries inline data; generateSpeech
    returns null exactly when the service call threw or the first part of
    the first candidate yields no payload or an empty one. *)
Theorem null_results
  (generateContent : GenerateContentParameters -> ServiceOutcome)
  (toLowerCase : jsstring -> jsstring) (term targetLang text : jsstring) :
  (settled (generateImage generateContent toLowerCase term targetLang)
   = Fulfilled None
   <-> (exists f,
          generateContent
            (imageRequest (seedOfTerm toLowerCase term) term targetLang)
          = Throws f) \/
       (exists r,
          generateContent
            (imageRequest (seedOfTerm toLowerCase term) term targetLang)
          = Resolves r /\
          Forall (fun p => inlineData p = None)
            (default [] (firstCandidateParts r)))) /\
  (settled (generateSpeech generateContent text) = Fulfilled None
   <-> (exists f, generateContent (speechRequest text) = Throws f) \/
       (exists r,
          generateContent (speechRequest text) = Resolves r /\
          (firstPart r ?> inlineData ?> data = None \/
           firstPart r ?> inlineData ?> data = Some []))).
Proof.
  split.
  - rewrite generateImage_seed.
    destruct (generateContent (imageRequest _ _ _)) as [r|f] eqn:Hcall;
      autorewrite with async; cbn [settled snd ret].
    + split.
      * intros [= Hscan]. right. exists r. split; [reflexivity|].
        apply scanParts_None_inv, Hscan.
      * intros [[f [=]] | (r' & [= <-] & Hnone)].
        rewrite scanParts_None by exact Hnone. reflexivity.
    + split; [|reflexivity]. intros _. left. exists f. reflexivity.
  - unfold generateSpeech.
    destruct (generateContent (speechRequest _)) as [r|f] eqn:Hcall;
      autorewrite with async; cbn [settled snd ret].
    + fold (firstPart r). split.
      * intros [= Hnull]. right. exists r. split; [reflexivity|].
        apply orNull_None, Hnull.
      * intros [[f [=]] | (r' & [= <-] & [-> | ->])]; reflexivity.
    + split; [|reflexivity]. intros _. left. exists f. reflexivity.
Qed.
